(** * fabio: the reconciliation loop, backend initialisation and dispatch
      lookups of [main.go], as a shallow embedding.

    Go strings are byte strings: they are modelled as [string] (a list of
    8-bit [ascii] bytes), compared with [=] (Go's [==] on strings is
    byte-wise).  The collaborators that live outside [main.go] (the route
    package, the diff library, the registry backends, the clock) are
    variables of the sections below. *)

From Stdlib Require Import ZArith Lia Ascii.
From stdpp Require Import base decidable option list strings gmap.

Local Open Scope Z_scope.

(** ** Go's [strings] functions used by [main.go] *)
Module GoStrings.

(** The newline byte, Go's ["\n"]. *)
Definition nl : string := String "010"%char "".

Definition bytes (l : list nat) : string :=
  foldr (fun n s => String (Ascii.ascii_of_nat n) s) "" l.

(** The UTF-8 encodings of the code points for which [unicode.IsSpace]
    holds: tab, LF, VT, FF, CR, space, U+0085, U+00A0, U+1680,
    U+2000..U+200A, U+2028, U+2029, U+202F, U+205F and U+3000.  Go's
    decoder accepts only the shortest encoding of a code point, so a string
    starts (ends) with a space rune exactly when it starts (ends) with one
    of these byte sequences. *)
Definition space_encodings : list string :=
  map bytes
    [ [9]; [10]; [11]; [12]; [13]; [32];
      [194; 133]; [194; 160];
      [225; 154; 128];
      [226; 128; 128]; [226; 128; 129]; [226; 128; 130]; [226; 128; 131];
      [226; 128; 132]; [226; 128; 133]; [226; 128; 134]; [226; 128; 135];
      [226; 128; 136]; [226; 128; 137]; [226; 128; 138];
      [226; 128; 168]; [226; 128; 169]; [226; 128; 175];
      [226; 129; 159];
      [227; 128; 128] ]%nat.

(** [strip_prefix p s] is [Some r] when [s = p ++ r]. *)
Fixpoint strip_prefix (p s : string) : option string :=
  match p, s with
  | EmptyString, _ => Some s
  | String a p', String b s' =>
      if decide (a = b) then strip_prefix p' s' else None
  | String _ _, EmptyString => None
  end.

Fixpoint strip_any (ps : list string) (s : string) : option string :=
  match ps with
  | [] => None
  | p :: ps' =>
      match strip_prefix p s with
      | Some r => Some r
      | None => strip_any ps' s
      end
  end.

(** [strings.TrimLeftFunc(s, unicode.IsSpace)]: drop leading space runes.
    Every rune dropped is at least one byte, so [length s] rounds are
    enough. *)
Fixpoint trim_left_fuel (fuel : nat) (s : string) : string :=
  match fuel with
  | O => s
  | S k =>
      match strip_any space_encodings s with
      | Some r => trim_left_fuel k r
      | None => s
      end
  end.

Definition TrimLeft (s : string) : string :=
  trim_left_fuel (String.length s) s.

Definition rev_string (s : string) : string :=
  String.string_of_list_ascii (rev (String.list_ascii_of_string s)).

(** [strings.TrimRightFunc(s, unicode.IsSpace)]: drop trailing space runes,
    the mirror image of [TrimLeft]. *)
Fixpoint trim_right_fuel (fuel : nat) (r : string) : string :=
  match fuel with
  | O => r
  | S k =>
      match strip_any (map rev_string space_encodings) r with
      | Some r' => trim_right_fuel k r'
      | None => r
      end
  end.

Definition TrimRight (s : string) : string :=
  rev_string (trim_right_fuel (String.length s) (rev_string s)).

(** [strings.TrimSpace(s)] is [TrimFunc(s, unicode.IsSpace)], that is
    [TrimRightFunc(TrimLeftFunc(s, f), f)]. *)
Definition TrimSpace (s : string) : string := TrimRight (TrimLeft s).

(** [strings.Replace(s, old, new, -1)] for a non-empty [old]: every
    non-overlapping occurrence of [old], leftmost first, becomes [new].
    [skip] counts the bytes of an occurrence already replaced. *)
Fixpoint replace_from (skip : nat) (s old new : string) : string :=
  match s with
  | EmptyString => ""
  | String c r =>
      match skip with
      | S k => replace_from k r old new
      | O =>
          match strip_prefix old s with
          | Some _ => new +:+ replace_from (String.length old - 1) r old new
          | None => String c (replace_from O r old new)
          end
      end
  end.

Definition Replace (s old new : string) : string := replace_from O s old new.

(** [strings.Split(s, sep)] for a one-byte separator: the pieces between
    occurrences of [sep]; never the empty list. *)
Fixpoint split_byte (sep : ascii) (s : string) : list string :=
  match s with
  | EmptyString => [""]
  | String c r =>
      if decide (c = sep) then "" :: split_byte sep r
      else match split_byte sep r with
           | l :: ls => String c l :: ls
           | [] => [String c ""]
           end
  end.

(** The lines of a text: the pieces between newline bytes. *)
Definition lines (s : string) : list string := split_byte "010"%char s.

(** [strings.Join(l, sep)]. *)
Fixpoint Join (l : list string) (sep : string) : string :=
  match l with
  | [] => ""
  | [x] => x
  | x :: l' => x +:+ sep +:+ Join l' sep
  end.

(** The lines of a concatenation: the last line of the first text and the
    first line of the second become one line. *)
Fixpoint glue (la lb : list string) : list string :=
  match la with
  | [] => lb
  | x :: la' =>
      match la' with
      | [] => match lb with
              | [] => [x]
              | y :: lb' => (x +:+ y) :: lb'
              end
      | _ :: _ => x :: glue la' lb
      end
  end.

Definition has_prefix (p s : string) : bool :=
  match strip_prefix p s with Some _ => true | None => false end.

End GoStrings.
Import GoStrings.

(** Go's [(value, error)] results with a non-nil error carrying its message. *)
Inductive result (A : Type) : Type :=
  | Ok (a : A)
  | Err (msg : string).
Arguments Ok {A} a.
Arguments Err {A} msg.

(** ** The configuration ([config.Config]), the fields [main.go] reads *)
Module config.
Record Registry := {
  Backend : string;
  Timeout : Z;     (* time.Duration, nanoseconds *)
  Retry : Z        (* time.Duration, nanoseconds *)
}.
Record Proxy := {
  Strategy : string;
  Matcher : string;
  LogRoutes : string
}.
Record Metrics := { Target : string }.
Record Config := {
  registry : Registry;
  proxy : Proxy;
  metrics : Metrics
}.
End config.

(** ** The diff library's values ([diffmatchpatch.Diff]) *)
Inductive Operation : Type := DiffDelete | DiffInsert | DiffEqual.

Record Diff := { Type_ : Operation; Text : string }.

(** [version] of [main.go]. *)
Definition version : string := "1.3.8".

(** [http.Request], the parts the lookup closure reads: [r.Host], the
    rendering of [r.URL] and [r.Header.Get("trace")]. *)
Record Request := { Host : string; URL : string; trace : string }.

(** ** Sample collaborators

    The route package, the diff library and the registry backends are not
    part of [main.go].  The development below is parametric in them; the
    instances here are small stand-ins on which the program can be run. *)
Module Sample.

(** A parsed rule: service, source (host and path) and destination. *)
Record Route := { service : string; src : string; dst : string }.

Definition Table : Type := list Route.

Definition fields (s : string) : list string :=
  filter (fun f => f <> "") (split_byte " "%char s).

Definition parse_line (l : string) : result (option Route) :=
  let t := TrimSpace l in
  if decide (t = "") then Ok None
  else if has_prefix "#" t then Ok None
  else match fields t with
       | "route" :: "add" :: svc :: s :: d :: _ =>
           Ok (Some {| service := svc; src := s; dst := d |})
       | _ => Err ("syntax error: '" +:+ t +:+ "'")
       end.

Fixpoint parse_lines (ls : list string) : result Table :=
  match ls with
  | [] => Ok []
  | l :: ls' =>
      match parse_line l with
      | Err e => Err e
      | Ok o =>
          match parse_lines ls' with
          | Err e => Err e
          | Ok t => Ok (match o with Some r => r :: t | None => t end)
          end
      end
  end.

(** Modelled from the spec: [route.NewTable] is not in [main.go].  Rule
    lines are [route add <service> <src> <dst> ...], one per line; blank
    lines and comment lines (starting with [#]) are ignored; a malformed
    line fails the whole parse with an error that shows the line. *)
Definition NewTable (text : string) : result Table := parse_lines (lines text).

(** A differ with results in the shape of [DiffMain]'s: the old text as
    one deletion, then the new text as one insertion. *)
Definition DiffMain (last next : string) (checklines : bool) : list Diff :=
  if decide (last = next) then [ {| Type_ := DiffEqual; Text := next |} ]
  else [ {| Type_ := DiffDelete; Text := last |};
         {| Type_ := DiffInsert; Text := next |} ].

(** The [%q] verb on a string without characters that need escaping. *)
Definition quote (s : string) : string :=
  String "034"%char (s +:+ String "034"%char "").

Inductive picker : Type := rndPicker | rrPicker.
Inductive matcher : Type := prefixMatcher | globMatcher.

(** Modelled from the spec: the maps [route.Picker] and [route.Matcher] are
    not in [main.go]; two pickers and two matchers of the families the
    specification lists, under sample names. *)
Definition Picker : gmap string picker :=
  <["rnd" := rndPicker]> (<["rr" := rrPicker]> ∅).
Definition Matcher : gmap string matcher :=
  <["prefix" := prefixMatcher]> (<["glob" := globMatcher]> ∅).

(** Modelled from the spec: [Table.Lookup] and [Table.LookupHost] are not
    in [main.go]; a prefix match that takes the first rule whose source is
    a prefix of the routing key and its only target, whatever the
    strategies. *)
Definition first_match (t : Table) (key : string) : option string :=
  dst <$> head (filter (fun r => has_prefix (src r) key = true) t).

Definition Lookup (t : Table) (r : Request) (tr : string)
    (pick : option picker) (mtch : option matcher) : option string :=
  match first_match t (Host r +:+ URL r) with
  | Some d => Some d
  | None => first_match t (URL r)
  end.

Definition LookupHost (t : Table) (serverName : string)
    (pick : option picker) : option string :=
  first_match t serverName.

End Sample.

(** ** [logRoutes] *)
Section LogRoutes.

(** [dmp.New().DiffMain(last, next, true)] of the diff library. *)
Variable DiffMain : string -> string -> bool -> list Diff.
(** The [%q] verb of [fmt]. *)
Variable quote : string -> string.

(** One round of the [range diffs] loop of [fmtDiff], [b] being the
    buffer. *)
Definition fmtDiff_body (b : string) (d : Diff) : string :=
  let t := TrimSpace (Text d) in
  if decide (t = "") then b
  else match Type_ d with
       | DiffDelete => (b +:+ "- ") +:+ Replace t nl (nl +:+ "- ")
       | DiffInsert => (b +:+ "+ ") +:+ Replace t nl (nl +:+ "+ ")
       | DiffEqual => b
       end.

Definition fmtDiff (diffs : list Diff) : string :=
  fold_left fmtDiff_body diffs "".

Definition defFormat : string := "delta".

(** [logRoutes(last, next, format)]: the messages it logs, in order.  The
    [default] case calls [logRoutes] again; [depth] bounds the nesting of
    such calls and [None] means the bound was hit. *)
Fixpoint logRoutes_depth (depth : nat) (last next format : string)
    : option (list string) :=
  if decide (format = "delta") then
    let delta := fmtDiff (DiffMain last next true) in
    if decide (delta <> "") then
      Some ["[INFO] Config updates" +:+ nl +:+ delta]
    else Some []
  else if decide (format = "all") then
    Some ["[INFO] Updated config to" +:+ nl +:+ next]
  else
    match depth with
    | O => None
    | S k =>
        cons ("[WARN] Invalid route format " +:+ quote format
              +:+ ". Defaulting to " +:+ quote defFormat)
          <$> logRoutes_depth k last next defFormat
    end.

(** One nested call is all [logRoutes] ever makes ([logRoutes_total]). *)
Definition logRoutes (last next format : string) : list string :=
  default [] (logRoutes_depth 1 last next format).

(** *** The delta format, fragment by fragment

    What [fmtDiff] writes, described without the buffer: insertions and
    deletions only, every line of a fragment's trimmed text behind the
    fragment's marker, fragments that are blank after trimming dropped, and
    the renderings put one after the other with nothing in between
    ([delta_written], the output as the code writes it).  [delta_lines] is the output as the specification words
    it, made of insert and delete lines: there every written fragment
    stands on lines of its own. *)
Definition marker (op : Operation) : option string :=
  match op with
  | DiffDelete => Some "- "
  | DiffInsert => Some "+ "
  | DiffEqual => None
  end.

Definition fragment_spec (d : Diff) : string :=
  let t := TrimSpace (Text d) in
  match marker (Type_ d) with
  | None => ""
  | Some m => if decide (t = "") then "" else Join (map (String.app m) (lines t)) nl
  end.

Definition delta_written (diffs : list Diff) : string :=
  foldr (fun d s => fragment_spec d +:+ s) "" diffs.

(** The marked lines of a fragment: none for equal material and for a
    fragment that is blank after trimming. *)
Definition fragment_lines (d : Diff) : list string :=
  let t := TrimSpace (Text d) in
  match marker (Type_ d) with
  | None => []
  | Some m => if decide (t = "") then [] else map (String.app m) (lines t)
  end.

(** The output as lines that are each an insert line or a delete line. *)
Definition delta_lines (diffs : list Diff) : list string :=
  flat_map fragment_lines diffs.

Definition marked (l : string) : Prop :=
  has_prefix "+ " l = true \/ has_prefix "- " l = true.

End LogRoutes.

(** ** [watchBackend]: the reconciliation loop *)
Section WatchBackend.

(** [route.Table] and [route.NewTable]. *)
Variable Table : Type.
Variable NewTable : string -> result Table.
Variable DiffMain : string -> string -> bool -> list Diff.
Variable quote : string -> string.

(** The loop's local variables. *)
Record Loop := { last : string; svccfg : string; mancfg : string }.

(** What the [select] received: a value from [svc] or one from [man]. *)
Inductive Wake : Type :=
  | FromSvc (s : string)
  | FromMan (s : string).

(** What an iteration does to the rest of the process. *)
Inductive Effect : Type :=
  | NewTableCall (text : string)
  | SetTableCall (t : Table)
  | Log (msg : string).

(** Modelled from the spec: the Table Store of the route package
    ([route.SetTable], [route.GetTable]) is not in [main.go]; [table] is
    the value [GetTable] returns, [SetTable t] replaces it.  [effects] is
    the history of calls and log lines. *)
Record World := { table : Table; effects : list Effect }.

Definition loop_init : Loop := {| last := ""; svccfg := ""; mancfg := "" |}.

(** The [select]: the received value goes to its own variable. *)
Definition receive (e : Wake) (st : Loop) : Loop :=
  match e with
  | FromSvc s => {| last := last st; svccfg := s; mancfg := mancfg st |}
  | FromMan s => {| last := last st; svccfg := svccfg st; mancfg := s |}
  end.

(** [next := svccfg + "\n" + mancfg]. *)
Definition merged (st : Loop) : string := svccfg st +:+ nl +:+ mancfg st.

(** One iteration of the [for] loop, from the [select] to the next
    [select]. *)
Definition iteration (format : string) (sw : Loop * World) (e : Wake)
    : Loop * World :=
  let st := receive e (fst sw) in
  let w := snd sw in
  let next := merged st in
  if decide (next = last st) then (st, w)
  else
    match NewTable next with
    | Err msg =>
        (st, {| table := table w;
                effects := effects w ++ [NewTableCall next; Log ("[WARN] " +:+ msg)] |})
    | Ok t =>
        ({| last := next; svccfg := svccfg st; mancfg := mancfg st |},
         {| table := t;
            effects := effects w ++ [NewTableCall next; SetTableCall t]
                       ++ map Log (logRoutes DiffMain quote (last st) next format) |})
    end.

(** The loop over the values its channels deliver, in the order the
    [select] takes them. *)
Definition watchBackend (cfg : config.Config) (wakes : list Wake) (w0 : World)
    : Loop * World :=
  fold_left (iteration (config.LogRoutes (config.proxy cfg))) wakes (loop_init, w0).

(** The value last received from each channel, the empty string when there
    was none. *)
Definition last_from_svc (wakes : list Wake) : string :=
  fold_left (fun acc e => match e with FromSvc s => s | FromMan _ => acc end) wakes "".
Definition last_from_man (wakes : list Wake) : string :=
  fold_left (fun acc e => match e with FromMan s => s | FromSvc _ => acc end) wakes "".

Definition is_NewTableCall (e : Effect) : bool :=
  match e with NewTableCall _ => true | _ => false end.
Definition is_SetTableCall (e : Effect) : bool :=
  match e with SetTableCall _ => true | _ => false end.

(** The effects an iteration adds to the history. *)
Definition added (before after : World) : list Effect :=
  drop (length (effects before)) (effects after).

Definition count_NewTable (l : list Effect) : nat :=
  length (List.filter is_NewTableCall l).
Definition count_SetTable (l : list Effect) : nat :=
  length (List.filter is_SetTableCall l).

(** [last] is the empty string or a text that parsed. *)
Definition applied (st : Loop) : Prop :=
  last st = "" \/ exists t, NewTable (last st) = Ok t.

End WatchBackend.

Arguments table {Table} _.
Arguments effects {Table} _.
Arguments NewTableCall {Table} text.
Arguments SetTableCall {Table} t.
Arguments Log {Table} msg.
Arguments iteration {Table} NewTable DiffMain quote format sw e.
Arguments watchBackend {Table} NewTable DiffMain quote cfg wakes w0.
Arguments added {Table} before after.
Arguments count_NewTable {Table} l.
Arguments count_SetTable {Table} l.
Arguments applied {Table} NewTable st.

(** ** [initBackend]: registration with retries *)

(** How the process ends when a function does not simply return:
    [exit.Fatal] logs and exits with status 1, [exit.Exit(code)] exits. *)
Inductive Stop : Type :=
  | Fatal (msg : string)
  | Exit (code : Z).

(** The three backends of the [switch]. *)
Inductive BackendKind : Type := FileBackend | StaticBackend | ConsulBackend.

Definition backend_kind (name : string) : option BackendKind :=
  if decide (name = "file") then Some FileBackend
  else if decide (name = "static") then Some StaticBackend
  else if decide (name = "consul") then Some ConsulBackend
  else None.

(** What the world answers during one round of the loop: the result of
    [NewBackend], the result of [Register] (read only when the backend was
    created), the clock at [time.Now()] of the deadline check, and
    [exit.ShuttingDown()] as read after the sleep. *)
Record Round := {
  created : result unit;
  registered : result unit;
  now : Z;
  shuttingDown : bool
}.

Inductive InitEvent : Type :=
  | NewBackendCall (k : BackendKind)
  | RegisterCall
  | InitLog (msg : string)
  | Sleep (d : Z).

Section InitBackend.

Variable cfg : config.Config.
(** [time.Now()] on entry. *)
Variable start : Z.
(** The answers of the world, round by round. *)
Variable world : nat -> Round.

Definition deadline : Z := start + config.Timeout (config.registry cfg).

(** The events of one attempt and its error, if any. *)
Definition attempt (k : BackendKind) (r : Round) : list InitEvent * option string :=
  match created r with
  | Err e => ([NewBackendCall k], Some e)
  | Ok _ =>
      match registered r with
      | Ok _ => ([NewBackendCall k; RegisterCall], None)
      | Err e => ([NewBackendCall k; RegisterCall], Some e)
      end
  end.

(** The [for] loop from round [i] on, with the events so far in [tr].
    [fuel] bounds the number of rounds run; [None] means the bound was
    hit, [Some None] that [initBackend] returned. *)
Fixpoint initBackend_from (fuel : nat) (i : nat) (tr : list InitEvent)
    : list InitEvent * option (option Stop) :=
  match fuel with
  | O => (tr, None)
  | S fuel' =>
      match backend_kind (config.Backend (config.registry cfg)) with
      | None =>
          (tr, Some (Some (Fatal ("[FATAL] Unknown registry backend "
                                  +:+ config.Backend (config.registry cfg)))))
      | Some k =>
          let r := world i in
          let '(evs, err) := attempt k r in
          match err with
          | None => (tr ++ evs, Some None)
          | Some e =>
              let tr1 := tr ++ evs ++ [InitLog ("[WARN] Error initializing backend. " +:+ e)] in
              if decide (now r > deadline) then
                (tr1, Some (Some (Fatal "[FATAL] Timeout registering backend.")))
              else
                let tr2 := tr1 ++ [Sleep (config.Retry (config.registry cfg))] in
                if shuttingDown r then (tr2, Some (Some (Exit 1)))
                else initBackend_from fuel' (S i) tr2
          end
      end
  end.

Definition initBackend (fuel : nat) : list InitEvent * option (option Stop) :=
  initBackend_from fuel O [].

Definition is_attempt (e : InitEvent) : bool :=
  match e with NewBackendCall _ => true | _ => false end.

Definition attempts (tr : list InitEvent) : nat :=
  length (List.filter is_attempt tr).

(** Round [i] fails: the backend is not created, or it does not
    register. *)
Definition fails (r : Round) : Prop :=
  match created r with
  | Err _ => True
  | Ok _ => match registered r with Err _ => True | Ok _ => False end
  end.

Definition failure (r : Round) : option string :=
  match created r with
  | Err e => Some e
  | Ok _ => match registered r with Err e => Some e | Ok _ => None end
  end.

(** [time.Sleep(d)] pauses for at least [d]: the clock of the next check
    is no earlier than this check plus the retry delay, and the first
    check is not before [start]. *)
Definition clock_runs : Prop :=
  start <= now (world O) /\
  forall i, now (world i) + config.Retry (config.registry cfg) <= now (world (S i)).

(** How a run that was stopped ended: by the deadline, or by a shutdown
    seen after a sleep. *)
Definition stopped_by (r : list InitEvent * option (option Stop)) : Prop :=
  snd r = Some (Some (Fatal "[FATAL] Timeout registering backend.")) \/
  (snd r = Some (Some (Exit 1)) /\ exists j, shuttingDown (world j) = true).

End InitBackend.

(** ** [main]: startup, the proxies and their lookups *)
Section Main.

Variable Table : Type.
Variable RouteTarget : Type.
Variables picker matcher : Type.
(** [route.Picker] and [route.Matcher], Go maps from names to functions. *)
Variable Picker : gmap string picker.
Variable Matcher : gmap string matcher.
(** [Table.Lookup] and [Table.LookupHost]; a [nil] function is [None], a
    [nil] target is [None]. *)
Variable Lookup :
  Table -> Request -> string -> option picker -> option matcher -> option RouteTarget.
Variable LookupHost : Table -> string -> option picker -> option RouteTarget.

(** The [Lookup] closure of [newHTTPProxy], run against the table
    [route.GetTable()] returns: the target and the lines logged. *)
Definition httpLookup (pick : option picker) (mtch : option matcher)
    (t : Table) (r : Request) : option RouteTarget * list string :=
  let tgt := Lookup t r (trace r) pick mtch in
  match tgt with
  | None => (tgt, ["[WARN] No route for " +:+ Host r +:+ URL r])
  | Some _ => (tgt, [])
  end.

(** The [Lookup] closure of [newTCPSNIProxy]. *)
Definition tcpLookup (cfg : config.Config) (t : Table) (serverName : string)
    : option RouteTarget * list string :=
  let tgt := LookupHost t serverName (Picker !! config.Strategy (config.proxy cfg)) in
  match tgt with
  | None => (tgt, ["[WARN] No route for " +:+ serverName])
  | Some _ => (tgt, [])
  end.

(** [proxy.HTTPProxy] as [newHTTPProxy] builds it: the two functions its
    closure captured and the lines logged on the way. *)
Record HTTPProxy := {
  pick : option picker;
  match_ : option matcher;
  http_log : list string
}.

Definition newHTTPProxy (quote : string -> string) (cfg : config.Config) : HTTPProxy :=
  {| pick := Picker !! config.Strategy (config.proxy cfg);
     match_ := Matcher !! config.Matcher (config.proxy cfg);
     http_log :=
       ["[INFO] Using routing strategy " +:+ quote (config.Strategy (config.proxy cfg));
        "[INFO] Using route matching " +:+ quote (config.Matcher (config.proxy cfg))] |}.

(** [config.Load]: an error, no configuration (the version is printed),
    or a configuration. *)
Inductive Loaded : Type :=
  | LoadError (e : string)
  | LoadNil
  | LoadConfig (cfg : config.Config).

(** The answers of the world during startup: [json.MarshalIndent] on the
    configuration ([toJSON]), the two [metrics.NewRegistry] calls, the
    clock and the rounds of [initBackend], and the error with which
    [srv.ListenAndServe] of the admin server returns in the goroutine of
    [startAdmin] before the listeners are started, if it does. *)
Record Startup := {
  configJSON : result string;
  defaultRegistry : result unit;
  serviceRegistry : result unit;
  start_time : Z;
  rounds : nat -> Round;
  adminError : option string
}.

(** [toJSON]: the text, or a panic with the message ["json: " + err]. *)
Definition toJSON (s : Startup) : result string :=
  match configJSON s with
  | Ok data => Ok data
  | Err e => Err ("json: " +:+ e)
  end.

(** [initMetrics]: [None] when it returns. *)
Definition initMetrics (cfg : config.Config) (s : Startup) : option Stop :=
  if decide (config.Target (config.metrics cfg) = "") then None
  else match defaultRegistry s with
       | Err e => Some (Fatal ("[FATAL] " +:+ e))
       | Ok _ =>
           match serviceRegistry s with
           | Err e => Some (Fatal ("[FATAL] " +:+ e))
           | Ok _ => None
           end
       end.

(** Where [main] gets to: the process was stopped by [exit.Fatal] or
    [exit.Exit], it panicked, it printed the version and returned, or it
    started its listeners with the proxy it built. *)
Inductive Process : Type :=
  | Stopped (s : Stop)
  | Panicked (msg : string)
  | VersionPrinted
  | Serving (p : HTTPProxy).

(** [startAdmin]: the goroutine calls [exit.Fatal] when [ListenAndServe]
    returns an error.  It runs beside [main]; the error the world answers
    with is the one that arrives before the listeners are started. *)
Definition startAdmin (s : Startup) : option Stop :=
  match adminError s with
  | Some e => Some (Fatal ("[FATAL] ui: " +:+ e))
  | None => None
  end.

(** [main] from the result of [config.Load] up to [startListeners]; [None]
    when [initBackend] is still retrying after [fuel] rounds.
    [initRuntime], the [watchBackend] goroutine and [newTCPSNIProxy] have no
    way to stop the startup and are not shown. *)
Definition main (quote : string -> string) (fuel : nat) (l : Loaded) (s : Startup)
    : option Process :=
  match l with
  | LoadError e => Some (Stopped (Fatal ("[FATAL] " +:+ version +:+ ". " +:+ e)))
  | LoadNil => Some VersionPrinted
  | LoadConfig cfg =>
      match toJSON s with
      | Err msg => Some (Panicked msg)
      | Ok _ =>
          match initMetrics cfg s with
          | Some stop => Some (Stopped stop)
          | None =>
              match snd (initBackend cfg (start_time s) (rounds s) fuel) with
              | None => None
              | Some (Some stop) => Some (Stopped stop)
              | Some None =>
                  match startAdmin s with
                  | Some stop => Some (Stopped stop)
                  | None => Some (Serving (newHTTPProxy quote cfg))
                  end
              end
          end
      end
  end.

(** What the command line and the environment ask for: the version, flags
    that do not parse, or settings. *)
Inductive CommandLine : Type :=
  | VersionFlag
  | BadFlags (e : string)
  | Settings (cfg : config.Config).

(** Modelled from the spec: [config.Load] is not in [main.go].  The strategy
    names are resolved once at startup from the configuration and an unknown
    picker or matcher name is a configuration error, fatal at startup: [Load]
    returns an error for it.  The backend name is left to the [switch] of
    [initBackend]. *)
Definition Load (cl : CommandLine) : Loaded :=
  match cl with
  | VersionFlag => LoadNil
  | BadFlags e => LoadError e
  | Settings cfg =>
      match Picker !! config.Strategy (config.proxy cfg),
            Matcher !! config.Matcher (config.proxy cfg) with
      | None, _ =>
          LoadError ("invalid proxy.strategy: " +:+ config.Strategy (config.proxy cfg))
      | Some _, None =>
          LoadError ("invalid proxy.matcher: " +:+ config.Matcher (config.proxy cfg))
      | Some _, Some _ => LoadConfig cfg
      end
  end.

(** The three names of a configuration are known ones. *)
Definition known_names (cfg : config.Config) : Prop :=
  is_Some (Picker !! config.Strategy (config.proxy cfg))
  /\ is_Some (Matcher !! config.Matcher (config.proxy cfg))
  /\ is_Some (backend_kind (config.Backend (config.registry cfg))).

(** The process ended before the serving state. *)
Definition failed_fast (p : Process) : Prop :=
  match p with
  | Stopped (Fatal _) | Panicked _ => True
  | Stopped (Exit _) | VersionPrinted | Serving _ => False
  end.

End Main.

Arguments httpLookup {Table RouteTarget picker matcher} Lookup pick mtch t r.
Arguments tcpLookup {Table RouteTarget picker} Picker LookupHost cfg t serverName.
Arguments pick {picker matcher} _.
Arguments match_ {picker matcher} _.
Arguments http_log {picker matcher} _.
Arguments newHTTPProxy {picker matcher} Picker Matcher quote cfg.
Arguments Stopped {picker matcher} s.
Arguments VersionPrinted {picker matcher}.
Arguments Panicked {picker matcher} msg.
Arguments Serving {picker matcher} p.
Arguments main {picker matcher} Picker Matcher quote fuel l s.
Arguments Load {picker matcher} Picker Matcher cl.
Arguments known_names {picker matcher} Picker Matcher cfg.
Arguments failed_fast {picker matcher} p.

(** ** Measures of runs, for the properties of whole runs *)
Section Measures.

Variable Table : Type.
Variable NewTable : string -> result Table.

(** The store holds the table of the applied text, or the table it started
    with while no text has been applied. *)
Definition store_matches (initial : Table) (sw : Loop * World Table) : Prop :=
  (last (fst sw) = "" /\ table (snd sw) = initial)
  \/ NewTable (last (fst sw)) = Ok (table (snd sw)).

(** The merged texts of the wakes of a run, in order: they depend on the
    values received only. *)
Fixpoint merged_texts (st : Loop) (wakes : list Wake) : list string :=
  match wakes with
  | [] => []
  | e :: ws => merged (receive e st) :: merged_texts (receive e st) ws
  end.

Definition is_Log (e : Effect Table) : bool :=
  match e with Log _ => true | _ => false end.

(** The calls into the route package, the log lines left out. *)
Definition calls (l : list (Effect Table)) : list (Effect Table) :=
  List.filter (fun e => negb (is_Log e)) l.

End Measures.

Arguments store_matches {Table} NewTable initial sw.
Arguments is_Log {Table} e.
Arguments calls {Table} l.

(** A fragment that [fmtDiff] writes nothing for. *)
Definition suppressed (d : Diff) : Prop :=
  Type_ d = DiffEqual \/ TrimSpace (Text d) = "".

Definition is_sleep (e : InitEvent) : bool :=
  match e with Sleep _ => true | _ => false end.
Definition is_warning (e : InitEvent) : bool :=
  match e with InitLog _ => true | _ => false end.
Definition is_register (e : InitEvent) : bool :=
  match e with RegisterCall => true | _ => false end.

Definition count_events (p : InitEvent -> bool) (tr : list InitEvent) : nat :=
  length (List.filter p tr).

(** What the events [ext] of a run of [initBackend] look like, by the way
    the run ended ([None]: still retrying). *)
Definition trace_shape (k : BackendKind) (retry : Z)
    (out : option (option Stop)) (ext : list InitEvent) : Prop :=
  Forall (fun e => is_sleep e = true -> e = Sleep retry) ext
  /\ (count_events is_register ext <= attempts ext)%nat
  /\ match out with
     | Some None =>
         attempts ext = S (count_events is_sleep ext)
         /\ count_events is_warning ext = count_events is_sleep ext
         /\ exists pre, ext = pre ++ [NewBackendCall k; RegisterCall]
     | Some (Some (Fatal _)) =>
         attempts ext = S (count_events is_sleep ext)
         /\ count_events is_warning ext = attempts ext
     | Some (Some (Exit _)) =>
         attempts ext = count_events is_sleep ext
         /\ count_events is_warning ext = attempts ext
     | None =>
         attempts ext = count_events is_sleep ext
         /\ count_events is_warning ext = attempts ext
     end.

(** ** Sample runs: configurations and answers of the world *)
Module SampleRun.

Definition cfg (backend strategy matcher : string) : config.Config :=
  {| config.registry := {| config.Backend := backend; config.Timeout := 10; config.Retry := 1 |};
     config.proxy := {| config.Strategy := strategy; config.Matcher := matcher;
                        config.LogRoutes := "delta" |};
     config.metrics := {| config.Target := "" |} |}.

Definition consul_cfg : config.Config := cfg "consul" "rnd" "prefix".

(** Every attempt succeeds. *)
Definition up (i : nat) : Round :=
  {| created := Ok tt; registered := Ok tt; now := Z.of_nat i + 1; shuttingDown := false |}.

(** The backend is not reachable in round 0, does not register in round 1
    and is fine from round 2 on. *)
Definition recovering (i : nat) : Round :=
  match i with
  | O => {| created := Err "connection refused"; registered := Ok tt;
            now := 1; shuttingDown := false |}
  | S O => {| created := Ok tt; registered := Err "no cluster leader";
              now := 2; shuttingDown := false |}
  | _ => up i
  end.

(** The backend is never reachable; a round takes one unit of time. *)
Definition down (i : nat) : Round :=
  {| created := Err "connection refused"; registered := Ok tt;
     now := Z.of_nat i + 1; shuttingDown := false |}.

(** The backend is never reachable and the shutdown signal arrives during
    the sleep of round [at_round]. *)
Definition down_until_signal (at_round : nat) (i : nat) : Round :=
  {| created := Err "connection refused"; registered := Ok tt;
     now := Z.of_nat i + 1;
     shuttingDown := bool_decide (at_round <= i)%nat |}.

Definition startup (world : nat -> Round) : Startup :=
  {| configJSON := Ok "{}"; defaultRegistry := Ok tt; serviceRegistry := Ok tt;
     start_time := 0; rounds := world; adminError := None |}.

Definition good_line : string := "route add svc1 /foo http://10.0.0.1:8080 weight=1".
Definition bad_line : string := "route add".

Definition empty_world : World Sample.Table := {| table := []; effects := [] |}.

Definition watch (wakes : list Wake) : Loop * World Sample.Table :=
  watchBackend Sample.NewTable Sample.DiffMain Sample.quote consul_cfg wakes empty_world.

End SampleRun.

(** * Properties *)

(** ** Byte strings *)

Lemma app_nil_l (s : string) : "" +:+ s = s.
Proof. reflexivity. Qed.

Lemma app_cons (c : ascii) (s t : string) : String c s +:+ t = String c (s +:+ t).
Proof. reflexivity. Qed.

Lemma app_nil_r (s : string) : s +:+ "" = s.
Proof. induction s as [|c s IH]; [reflexivity|]. rewrite app_cons, IH. reflexivity. Qed.

Lemma app_assoc (a b c : string) : (a +:+ b) +:+ c = a +:+ (b +:+ c).
Proof.
  induction a as [|x a IH]; [reflexivity|].
  rewrite !app_cons, IH. reflexivity.
Qed.

Lemma app_eq_nil (a b : string) : a +:+ b = "" -> a = "" /\ b = "".
Proof. destruct a; [rewrite app_nil_l; auto | rewrite app_cons; discriminate]. Qed.

Lemma strip_prefix_app (p s : string) : strip_prefix p (p +:+ s) = Some s.
Proof.
  induction p as [|c p IH]; [reflexivity|].
  rewrite app_cons. simpl. destruct (decide (c = c)); [exact IH | congruence].
Qed.

Lemma has_prefix_app (p s : string) : has_prefix p (p +:+ s) = true.
Proof. unfold has_prefix. rewrite strip_prefix_app. reflexivity. Qed.

Lemma strip_prefix_app_r (p s r x : string) :
  strip_prefix p s = Some r -> strip_prefix p (s +:+ x) = Some (r +:+ x).
Proof.
  revert s. induction p as [|c p IH]; intros s H.
  - simpl in *. congruence.
  - destruct s as [|b s]; [discriminate|].
    rewrite app_cons. simpl in *. destruct (decide (c = b)); [auto | discriminate].
Qed.

Lemma has_prefix_app_r (p s x : string) :
  has_prefix p s = true -> has_prefix p (s +:+ x) = true.
Proof.
  unfold has_prefix. destruct (strip_prefix p s) as [r|] eqn:E; [|discriminate].
  intros _. rewrite (strip_prefix_app_r _ _ _ x E). reflexivity.
Qed.

Lemma split_byte_nonempty (sep : ascii) (s : string) : split_byte sep s <> [].
Proof.
  destruct s as [|c r]; simpl; [discriminate|].
  destruct (decide (c = sep)); [discriminate|].
  destruct (split_byte sep r); discriminate.
Qed.

Lemma lines_nil : lines "" = [""].
Proof. reflexivity. Qed.

Lemma lines_nl (r : string) : lines (String "010"%char r) = "" :: lines r.
Proof. reflexivity. Qed.

Lemma lines_other (c : ascii) (r : string) :
  c <> "010"%char ->
  exists l ls, lines r = l :: ls /\ lines (String c r) = String c l :: ls.
Proof.
  intros Hc. unfold lines. simpl.
  destruct (decide (c = "010"%char)); [contradiction|].
  destruct (split_byte "010" r) as [|l ls] eqn:E.
  - exfalso. exact (split_byte_nonempty _ _ E).
  - eauto.
Qed.

Lemma lines_app (a b : string) : lines (a +:+ b) = glue (lines a) (lines b).
Proof.
  induction a as [|c a IH].
  - rewrite app_nil_l, lines_nil. simpl.
    destruct (lines b) as [|y lb] eqn:E; [|reflexivity].
    exfalso. exact (split_byte_nonempty _ _ E).
  - rewrite app_cons. destruct (decide (c = "010"%char)) as [->|Hc].
    + rewrite !lines_nl, IH. simpl.
      destruct (lines a) as [|l ls] eqn:E; [|reflexivity].
      exfalso. exact (split_byte_nonempty _ _ E).
    + destruct (lines_other c a Hc) as (l & ls & Ea & ->).
      destruct (lines_other c (a +:+ b) Hc) as (l' & ls' & Eab & ->).
      rewrite IH, Ea in Eab. simpl in *.
      destruct ls as [|x ls].
      * destruct (lines b) as [|y lb]; inversion Eab; subst; reflexivity.
      * inversion Eab; subst. reflexivity.
Qed.

Lemma Forall_glue (Q : string -> Prop) (la lb : list string) :
  (forall x y, Q x -> Q (x +:+ y)) ->
  Forall Q la -> Forall Q lb -> Forall Q (glue la lb).
Proof.
  intros Hext Ha Hb. induction Ha as [|x la Hx Ha IH]; [exact Hb|].
  simpl. destruct la as [|x' la].
  - destruct Hb as [|y lb Hy Hb]; constructor; auto.
  - constructor; auto.
Qed.

Lemma Replace_nil (old new : string) : Replace "" old new = "".
Proof. reflexivity. Qed.

Lemma Replace_nl (r new : string) :
  Replace (String "010"%char r) nl new = new +:+ Replace r nl new.
Proof. reflexivity. Qed.

Lemma Replace_other (c : ascii) (r new : string) :
  c <> "010"%char -> Replace (String c r) nl new = String c (Replace r nl new).
Proof.
  intros Hc. unfold Replace, nl. simpl.
  destruct (decide ("010"%char = c)); [congruence | reflexivity].
Qed.

Lemma Join_cons (x y : string) (l : list string) (sep : string) :
  Join (x :: y :: l) sep = x +:+ sep +:+ Join (y :: l) sep.
Proof. reflexivity. Qed.

(** Writing a marker and then the text with every newline followed by the
    marker is joining the marked lines of the text. *)
Lemma Replace_Join (m t p : string) :
  p +:+ Replace t nl (nl +:+ m) =
  match lines t with
  | l :: ls => Join ((p +:+ l) :: map (String.app m) ls) nl
  | [] => p
  end.
Proof.
  revert p. induction t as [|c r IH]; intros p.
  - rewrite Replace_nil, lines_nil. reflexivity.
  - destruct (decide (c = "010"%char)) as [->|Hc].
    + rewrite Replace_nl, lines_nl.
      specialize (IH m).
      destruct (lines r) as [|l ls] eqn:E.
      { exfalso. exact (split_byte_nonempty _ _ E). }
      cbn [map]. rewrite Join_cons, <- IH.
      rewrite app_nil_r, !app_assoc. reflexivity.
    + rewrite (Replace_other _ _ _ Hc).
      destruct (lines_other c r Hc) as (l & ls & Er & ->).
      specialize (IH (p +:+ String c "")). rewrite Er in IH.
      change (String c (Replace r nl (nl +:+ m)))
        with (String c "" +:+ Replace r nl (nl +:+ m)).
      rewrite <- app_assoc, IH, app_assoc. reflexivity.
Qed.

Lemma lines_Replace (m t : string) :
  lines m = [m] ->
  lines (Replace t nl (nl +:+ m)) =
  match lines t with
  | l :: ls => l :: map (String.app m) ls
  | [] => []
  end.
Proof.
  intros Hm. induction t as [|c r IH].
  - reflexivity.
  - destruct (decide (c = "010"%char)) as [->|Hc].
    + rewrite Replace_nl, lines_nl.
      change ((nl +:+ m) +:+ Replace r nl (nl +:+ m))
        with (String "010"%char (m +:+ Replace r nl (nl +:+ m))).
      rewrite lines_nl, lines_app, Hm, IH.
      destruct (lines r) as [|l ls] eqn:E; [|reflexivity].
      exfalso. exact (split_byte_nonempty _ _ E).
    + rewrite (Replace_other _ _ _ Hc).
      destruct (lines_other c r Hc) as (l & ls & Er & ->).
      destruct (lines_other c (Replace r nl (nl +:+ m)) Hc) as (l' & ls' & Er' & ->).
      rewrite IH, Er in Er'. inversion Er'; subst. reflexivity.
Qed.

(** The lines of a written fragment are the lines of its text, each behind
    the marker. *)
Lemma lines_fragment (m t : string) :
  lines m = [m] ->
  lines (m +:+ Replace t nl (nl +:+ m)) = map (String.app m) (lines t).
Proof.
  intros Hm. rewrite lines_app, Hm, (lines_Replace m t Hm).
  destruct (lines t) as [|l ls] eqn:E; [|reflexivity].
  exfalso. exact (split_byte_nonempty _ _ E).
Qed.

Lemma marked_app_r (x y : string) : marked x -> marked (x +:+ y).
Proof. intros [H|H]; [left|right]; apply has_prefix_app_r; exact H. Qed.

Lemma marked_lines_app (a b : string) :
  a = "" \/ Forall marked (lines a) ->
  b = "" \/ Forall marked (lines b) ->
  a +:+ b = "" \/ Forall marked (lines (a +:+ b)).
Proof.
  intros [->|Ha] Hb; [rewrite app_nil_l; exact Hb|].
  destruct Hb as [->|Hb]; [rewrite app_nil_r; right; exact Ha|].
  right. rewrite lines_app. apply Forall_glue; auto using marked_app_r.
Qed.

Lemma fragment_spec_marked (d : Diff) :
  fragment_spec d = "" \/ Forall marked (lines (fragment_spec d)).
Proof.
  unfold fragment_spec.
  destruct (marker (Type_ d)) as [m|] eqn:Em; [|left; reflexivity].
  destruct (decide (TrimSpace (Text d) = "")); [left; reflexivity|].
  right.
  assert (Hm : lines m = [m] /\ marked m).
  { destruct (Type_ d); inversion Em; subst; split;
      try reflexivity; [right|left]; reflexivity. }
  destruct Hm as [Hm Hmk].
  pose proof (Replace_Join m (TrimSpace (Text d)) m) as HJ.
  pose proof (lines_fragment m (TrimSpace (Text d)) Hm) as HL.
  destruct (lines (TrimSpace (Text d))) as [|l ls] eqn:E.
  { exfalso. exact (split_byte_nonempty _ _ E). }
  cbv beta iota in HJ. cbn [map]. cbn [map] in HL. rewrite <- HJ, HL.
  apply List.Forall_forall. intros x Hx.
  change ((m +:+ l) :: map (String.app m) ls) with (map (String.app m) (l :: ls)) in Hx.
  apply in_map_iff in Hx. destruct Hx as (y & <- & _).
  apply marked_app_r. exact Hmk.
Qed.

Lemma fmtDiff_body_spec (b : string) (d : Diff) :
  fmtDiff_body b d = b +:+ fragment_spec d.
Proof.
  unfold fmtDiff_body, fragment_spec.
  destruct (decide (TrimSpace (Text d) = "")) as [E|E].
  - destruct (marker (Type_ d)); rewrite app_nil_r; reflexivity.
  - pose proof (fun m => Replace_Join m (TrimSpace (Text d)) m) as HJ.
    destruct (lines (TrimSpace (Text d))) as [|l ls] eqn:El.
    { exfalso. exact (split_byte_nonempty _ _ El). }
    cbv beta iota in HJ.
    destruct (Type_ d); cbn [marker map].
    + rewrite app_assoc, HJ. reflexivity.
    + rewrite app_assoc, HJ. reflexivity.
    + rewrite app_nil_r. reflexivity.
Qed.

Lemma fold_fmtDiff_body (diffs : list Diff) (b : string) :
  fold_left fmtDiff_body diffs b = b +:+ delta_written diffs.
Proof.
  revert b. induction diffs as [|d ds IH]; intros b; simpl.
  - rewrite app_nil_r. reflexivity.
  - rewrite IH, fmtDiff_body_spec, app_assoc. reflexivity.
Qed.

(** [fmtDiff] writes what the specification describes. *)
Lemma fmtDiff_delta_written (diffs : list Diff) : fmtDiff diffs = delta_written diffs.
Proof. unfold fmtDiff. rewrite fold_fmtDiff_body. reflexivity. Qed.

Lemma delta_written_marked (diffs : list Diff) :
  delta_written diffs = "" \/ Forall marked (lines (delta_written diffs)).
Proof.
  induction diffs as [|d ds IH]; [left; reflexivity|].
  simpl. apply marked_lines_app; [apply fragment_spec_marked | exact IH].
Qed.

Lemma logRoutes_depth_delta DiffMain quote depth last next :
  logRoutes_depth DiffMain quote depth last next "delta" =
  Some (if decide (fmtDiff (DiffMain last next true) <> "")
        then ["[INFO] Config updates" +:+ nl +:+ fmtDiff (DiffMain last next true)]
        else []).
Proof.
  destruct depth; simpl; destruct (decide _); reflexivity.
Qed.

Lemma logRoutes_depth_all DiffMain quote depth last next :
  logRoutes_depth DiffMain quote depth last next "all" =
  Some ["[INFO] Updated config to" +:+ nl +:+ next].
Proof. destruct depth; reflexivity. Qed.

Lemma logRoutes_depth_default DiffMain quote depth last next format :
  format <> "delta" -> format <> "all" ->
  logRoutes_depth DiffMain quote (S depth) last next format =
  cons ("[WARN] Invalid route format " +:+ quote format
        +:+ ". Defaulting to " +:+ quote defFormat)
    <$> logRoutes_depth DiffMain quote depth last next defFormat.
Proof.
  intros H1 H2. simpl.
  destruct (decide (format = "delta")); [contradiction|].
  destruct (decide (format = "all")); [contradiction|].
  reflexivity.
Qed.

(** [logRoutes] returns: one nested call is the most it makes, and a larger
    bound changes nothing. *)
Lemma logRoutes_total DiffMain quote depth last next format :
  logRoutes_depth DiffMain quote (S depth) last next format =
  Some (logRoutes DiffMain quote last next format).
Proof.
  unfold logRoutes.
  destruct (decide (format = "delta")) as [->|H1].
  { rewrite !logRoutes_depth_delta. reflexivity. }
  destruct (decide (format = "all")) as [->|H2].
  { rewrite !logRoutes_depth_all. reflexivity. }
  rewrite !logRoutes_depth_default by assumption.
  unfold defFormat. rewrite !logRoutes_depth_delta. reflexivity.
Qed.

(** ** [logRoutes] *)

(** C5: for every pair of texts and every format that is neither "delta" nor
    "all", [logRoutes] logs the warning about the invalid format and then
    logs exactly what [logRoutes] logs for the format "delta" on the same
    two texts. *)
Theorem logRoutes_invalid_format_defaults_to_delta
    (DiffMain : string -> string -> bool -> list Diff) (quote : string -> string)
    (last next format : string) :
  format <> "delta" -> format <> "all" ->
  logRoutes DiffMain quote last next format =
  ("[WARN] Invalid route format " +:+ quote format
   +:+ ". Defaulting to " +:+ quote "delta")
  :: logRoutes DiffMain quote last next "delta".
Proof.
  intros H1 H2. unfold logRoutes.
  rewrite logRoutes_depth_default by assumption.
  unfold defFormat. rewrite !logRoutes_depth_delta. reflexivity.
Qed.

Lemma lines_fragment_spec (d : Diff) (m : string) :
  marker (Type_ d) = Some m -> TrimSpace (Text d) <> "" ->
  lines (fragment_spec d) = map (String.app m) (lines (TrimSpace (Text d))).
Proof.
  intros Em Ht. unfold fragment_spec. rewrite Em.
  destruct (decide (TrimSpace (Text d) = "")); [contradiction|].
  assert (Hm : lines m = [m]).
  { destruct (Type_ d); inversion Em; subst; reflexivity. }
  pose proof (lines_fragment m (TrimSpace (Text d)) Hm) as HL.
  pose proof (Replace_Join m (TrimSpace (Text d)) m) as HJ.
  destruct (lines (TrimSpace (Text d))) as [|l ls] eqn:E.
  { exfalso. exact (split_byte_nonempty _ _ E). }
  cbv beta iota in HJ. cbn [map] in *. rewrite <- HJ. exact HL.
Qed.

Lemma lines_fragment_lines (d : Diff) :
  ~ suppressed d -> lines (fragment_spec d) = fragment_lines d.
Proof.
  intros Hd. unfold suppressed in Hd.
  destruct (decide (TrimSpace (Text d) = "")) as [Ht|Ht]; [tauto|].
  destruct (marker (Type_ d)) as [m|] eqn:Em.
  - rewrite (lines_fragment_spec d m Em Ht). unfold fragment_lines. rewrite Em.
    destruct (decide (TrimSpace (Text d) = "")); [contradiction | reflexivity].
  - exfalso. apply Hd. left. destruct (Type_ d); try discriminate. reflexivity.
Qed.

(** C6, as the code has it: the "delta" output is made of insertions and
    deletions only: equal fragments and fragments that are empty after
    trimming are left out, every line of any other fragment's trimmed text
    stands behind "+ " (insertion) or "- " (deletion), and the renderings
    are written one after the other with no separator.  Every line of a
    non-empty output therefore starts with "+ " or "- ", but the last line
    of a fragment and the first line of the next written one form a single
    output line.  The format "all" prints the full new merged text. *)
Theorem logRoutes_delta_output_and_all_output
    (DiffMain : string -> string -> bool -> list Diff) (quote : string -> string)
    (last next : string) :
  let diffs := DiffMain last next true in
  fmtDiff diffs = delta_written diffs
  /\ (forall d, Type_ d = DiffEqual -> fragment_spec d = "")
  /\ (forall d, TrimSpace (Text d) = "" -> fragment_spec d = "")
  /\ (forall d, Type_ d = DiffInsert -> TrimSpace (Text d) <> "" ->
        lines (fragment_spec d) = map (String.app "+ ") (lines (TrimSpace (Text d))))
  /\ (forall d, Type_ d = DiffDelete -> TrimSpace (Text d) <> "" ->
        lines (fragment_spec d) = map (String.app "- ") (lines (TrimSpace (Text d))))
  /\ (fmtDiff diffs = "" \/ Forall marked (lines (fmtDiff diffs)))
  /\ logRoutes DiffMain quote last next "delta" =
       (if decide (fmtDiff diffs <> "")
        then ["[INFO] Config updates" +:+ nl +:+ fmtDiff diffs] else [])
  /\ logRoutes DiffMain quote last next "all" =
       ["[INFO] Updated config to" +:+ nl +:+ next]
  /\ (forall d ds, suppressed d -> fmtDiff (d :: ds) = fmtDiff ds)
  /\ (forall d ds, ~ suppressed d ->
        fmtDiff (d :: ds) = fragment_spec d +:+ fmtDiff ds
        /\ lines (fragment_spec d) = fragment_lines d
        /\ lines (fmtDiff (d :: ds)) = glue (fragment_lines d) (lines (fmtDiff ds))).
Proof.
  intros diffs. split_and!.
  - apply fmtDiff_delta_written.
  - intros d Hd. unfold fragment_spec. rewrite Hd. reflexivity.
  - intros d Hd. unfold fragment_spec. rewrite Hd.
    destruct (marker (Type_ d)); reflexivity.
  - intros d Hd Ht. apply lines_fragment_spec; [rewrite Hd; reflexivity | exact Ht].
  - intros d Hd Ht. apply lines_fragment_spec; [rewrite Hd; reflexivity | exact Ht].
  - rewrite fmtDiff_delta_written. apply delta_written_marked.
  - unfold logRoutes. rewrite logRoutes_depth_delta. reflexivity.
  - unfold logRoutes. rewrite logRoutes_depth_all. reflexivity.
  - intros d ds Hd. rewrite !fmtDiff_delta_written. simpl.
    assert (He : fragment_spec d = "").
    { unfold fragment_spec. destruct Hd as [Hd|Hd]; rewrite Hd;
        [reflexivity | destruct (marker (Type_ d)); reflexivity]. }
    rewrite He. reflexivity.
  - intros d ds Hd.
    assert (Hc : fmtDiff (d :: ds) = fragment_spec d +:+ fmtDiff ds).
    { rewrite !fmtDiff_delta_written. reflexivity. }
    split_and!; [exact Hc | apply lines_fragment_lines, Hd |].
    rewrite Hc, lines_app, (lines_fragment_lines d Hd). reflexivity.
Qed.

(** ** The reconciliation loop *)
Section WatchBackendFacts.

Variable Table : Type.
Variable NewTable : string -> result Table.
Variable DiffMain : string -> string -> bool -> list Diff.
Variable quote : string -> string.
Variable format : string.

Local Abbreviation step := (iteration NewTable DiffMain quote format).

Lemma last_receive (e : Wake) (st : Loop) : last (receive e st) = last st.
Proof. destruct e; reflexivity. Qed.

Lemma merged_not_empty (st : Loop) : merged st <> "".
Proof.
  unfold merged. intros H. apply app_eq_nil in H as [_ H]. discriminate.
Qed.

(** The three ways through an iteration. *)
Lemma iteration_noop (sw : Loop * World Table) (e : Wake) :
  merged (receive e (fst sw)) = last (fst sw) ->
  step sw e = (receive e (fst sw), snd sw).
Proof.
  intros H. unfold iteration. rewrite last_receive.
  destruct (decide _); [reflexivity | contradiction].
Qed.

Lemma iteration_err (sw : Loop * World Table) (e : Wake) (msg : string) :
  merged (receive e (fst sw)) <> last (fst sw) ->
  NewTable (merged (receive e (fst sw))) = Err msg ->
  step sw e =
  (receive e (fst sw),
   {| table := table (snd sw);
      effects := effects (snd sw)
                 ++ [NewTableCall (merged (receive e (fst sw)));
                     Log ("[WARN] " +:+ msg)] |}).
Proof.
  intros H E. unfold iteration. rewrite last_receive.
  destruct (decide _); [contradiction|]. rewrite E. reflexivity.
Qed.

Lemma iteration_ok (sw : Loop * World Table) (e : Wake) (t : Table) :
  merged (receive e (fst sw)) <> last (fst sw) ->
  NewTable (merged (receive e (fst sw))) = Ok t ->
  step sw e =
  ({| last := merged (receive e (fst sw));
      svccfg := svccfg (receive e (fst sw));
      mancfg := mancfg (receive e (fst sw)) |},
   {| table := t;
      effects := effects (snd sw)
                 ++ [NewTableCall (merged (receive e (fst sw))); SetTableCall t]
                 ++ map Log (logRoutes DiffMain quote (last (fst sw))
                               (merged (receive e (fst sw))) format) |}).
Proof.
  intros H E. unfold iteration. rewrite last_receive.
  destruct (decide _); [contradiction|]. rewrite E. reflexivity.
Qed.

(** The halves of the pending pair after an iteration are those the
    [select] left. *)
Lemma iteration_halves (sw : Loop * World Table) (e : Wake) :
  svccfg (fst (step sw e)) = svccfg (receive e (fst sw)) /\
  mancfg (fst (step sw e)) = mancfg (receive e (fst sw)).
Proof.
  unfold iteration. destruct (decide _); [split; reflexivity|].
  destruct (NewTable _); split; reflexivity.
Qed.

Lemma applied_iteration (sw : Loop * World Table) (e : Wake) :
  applied NewTable (fst sw) -> applied NewTable (fst (step sw e)).
Proof.
  intros H. unfold iteration, applied. rewrite last_receive.
  destruct (decide _); [simpl; rewrite last_receive; exact H|].
  destruct (NewTable (merged (receive e (fst sw)))) as [t|msg] eqn:E; simpl.
  - right. exists t. exact E.
  - rewrite last_receive. exact H.
Qed.

Lemma applied_fold (wakes : list Wake) (sw : Loop * World Table) :
  applied NewTable (fst sw) -> applied NewTable (fst (fold_left step wakes sw)).
Proof.
  revert sw. induction wakes as [|e ws IH]; intros sw H; simpl; [exact H|].
  apply IH, applied_iteration, H.
Qed.

(** A text that fails to parse is never the applied one. *)
Lemma failing_text_not_applied (st : Loop) (e : Wake) (msg : string) :
  applied NewTable st ->
  NewTable (merged (receive e st)) = Err msg ->
  merged (receive e st) <> last st.
Proof.
  intros [H|[t H]] E Heq.
  - rewrite H in Heq. exact (merged_not_empty _ Heq).
  - rewrite Heq, H in E. discriminate.
Qed.

Lemma added_app (w : World Table) (t : Table) (l : list (Effect Table)) :
  added w {| table := t; effects := effects w ++ l |} = l.
Proof. unfold added. simpl. apply drop_app_length. Qed.

Lemma added_same (w : World Table) : added w w = [].
Proof. unfold added. apply drop_all. Qed.

Lemma count_NewTable_logs (l : list string) :
  count_NewTable (map (@Log Table) l) = 0%nat.
Proof. unfold count_NewTable. induction l; simpl; auto. Qed.

Lemma count_SetTable_logs (l : list string) :
  count_SetTable (map (@Log Table) l) = 0%nat.
Proof. unfold count_SetTable. induction l; simpl; auto. Qed.

(** What an iteration adds to the history, by the way it took. *)
Lemma added_noop (sw : Loop * World Table) (e : Wake) :
  merged (receive e (fst sw)) = last (fst sw) ->
  added (snd sw) (snd (step sw e)) = [].
Proof. intros H. rewrite (iteration_noop _ _ H). simpl. apply added_same. Qed.

Lemma added_err (sw : Loop * World Table) (e : Wake) (msg : string) :
  merged (receive e (fst sw)) <> last (fst sw) ->
  NewTable (merged (receive e (fst sw))) = Err msg ->
  added (snd sw) (snd (step sw e)) =
  [NewTableCall (merged (receive e (fst sw))); Log ("[WARN] " +:+ msg)].
Proof. intros H E. rewrite (iteration_err _ _ _ H E). simpl. apply added_app. Qed.

Lemma added_ok (sw : Loop * World Table) (e : Wake) (t : Table) :
  merged (receive e (fst sw)) <> last (fst sw) ->
  NewTable (merged (receive e (fst sw))) = Ok t ->
  added (snd sw) (snd (step sw e)) =
  [NewTableCall (merged (receive e (fst sw))); SetTableCall t]
  ++ map Log (logRoutes DiffMain quote (last (fst sw))
                (merged (receive e (fst sw))) format).
Proof. intros H E. rewrite (iteration_ok _ _ _ H E). simpl. apply added_app. Qed.

Lemma count_NewTable_added (sw : Loop * World Table) (e : Wake) :
  count_NewTable (added (snd sw) (snd (step sw e))) =
  if decide (merged (receive e (fst sw)) = last (fst sw)) then 0%nat else 1%nat.
Proof.
  destruct (decide _) as [H|H].
  - rewrite (added_noop _ _ H). reflexivity.
  - destruct (NewTable (merged (receive e (fst sw)))) as [t|msg] eqn:E.
    + rewrite (added_ok _ _ _ H E). unfold count_NewTable.
      rewrite List.filter_app, length_app. fold (count_NewTable (map (@Log Table)
        (logRoutes DiffMain quote (last (fst sw)) (merged (receive e (fst sw))) format))).
      rewrite count_NewTable_logs. reflexivity.
    + rewrite (added_err _ _ _ H E). reflexivity.
Qed.

Lemma count_SetTable_added (sw : Loop * World Table) (e : Wake) :
  count_SetTable (added (snd sw) (snd (step sw e))) =
  if decide (merged (receive e (fst sw)) = last (fst sw)) then 0%nat
  else match NewTable (merged (receive e (fst sw))) with
       | Ok _ => 1%nat
       | Err _ => 0%nat
       end.
Proof.
  destruct (decide _) as [H|H].
  - rewrite (added_noop _ _ H). reflexivity.
  - destruct (NewTable (merged (receive e (fst sw)))) as [t|msg] eqn:E.
    + rewrite (added_ok _ _ _ H E). unfold count_SetTable.
      rewrite List.filter_app, length_app. fold (count_SetTable (map (@Log Table)
        (logRoutes DiffMain quote (last (fst sw)) (merged (receive e (fst sw))) format))).
      rewrite count_SetTable_logs. reflexivity.
    + rewrite (added_err _ _ _ H E). reflexivity.
Qed.

(** After a successful iteration the applied text is the merged one; after
    any other it is what it was. *)
Lemma last_iteration (sw : Loop * World Table) (e : Wake) :
  last (fst (step sw e)) =
  if decide (merged (receive e (fst sw)) = last (fst sw)) then last (fst sw)
  else match NewTable (merged (receive e (fst sw))) with
       | Ok _ => merged (receive e (fst sw))
       | Err _ => last (fst sw)
       end.
Proof.
  unfold iteration. rewrite last_receive.
  destruct (decide _); [simpl; apply last_receive|].
  destruct (NewTable _); simpl; [reflexivity | apply last_receive].
Qed.

Lemma halves_fold (wakes : list Wake) (sw : Loop * World Table) :
  svccfg (fst (fold_left step wakes sw)) =
    fold_left (fun acc e => match e with FromSvc s => s | FromMan _ => acc end)
      wakes (svccfg (fst sw)) /\
  mancfg (fst (fold_left step wakes sw)) =
    fold_left (fun acc e => match e with FromMan s => s | FromSvc _ => acc end)
      wakes (mancfg (fst sw)).
Proof.
  revert sw. induction wakes as [|e ws IH]; intros sw; simpl; [split; reflexivity|].
  destruct (IH (step sw e)) as [IH1 IH2]. rewrite IH1, IH2.
  destruct (iteration_halves sw e) as [-> ->].
  destruct e; split; reflexivity.
Qed.

End WatchBackendFacts.

Lemma watchBackend_snoc {Table : Type} (NewTable : string -> result Table)
    (DiffMain : string -> string -> bool -> list Diff) (quote : string -> string)
    (cfg : config.Config) (wakes more : list Wake) (w0 : World Table) :
  watchBackend NewTable DiffMain quote cfg (wakes ++ more) w0 =
  fold_left (iteration NewTable DiffMain quote (config.LogRoutes (config.proxy cfg)))
    more (watchBackend NewTable DiffMain quote cfg wakes w0).
Proof. unfold watchBackend. apply fold_left_app. Qed.

Lemma watchBackend_applied {Table : Type} (NewTable : string -> result Table)
    (DiffMain : string -> string -> bool -> list Diff) (quote : string -> string)
    (cfg : config.Config) (wakes : list Wake) (w0 : World Table) :
  applied NewTable (fst (watchBackend NewTable DiffMain quote cfg wakes w0)).
Proof. unfold watchBackend. apply applied_fold. left. reflexivity. Qed.

(** C1: when [route.NewTable] returns an error for the merged text of a
    wake, the iteration does not call [route.SetTable]: the table the store
    holds is the one it held before, a warning with the error is logged, the
    loop keeps its variables (the received value apart) and goes on with the
    next values of its channels. *)
Theorem parse_failure_leaves_table_store {Table : Type}
    (NewTable : string -> result Table)
    (DiffMain : string -> string -> bool -> list Diff) (quote : string -> string)
    (cfg : config.Config) (wakes : list Wake) (w0 : World Table)
    (e : Wake) (msg : string) :
  let step := iteration NewTable DiffMain quote (config.LogRoutes (config.proxy cfg)) in
  let sw := watchBackend NewTable DiffMain quote cfg wakes w0 in
  let next := merged (receive e (fst sw)) in
  NewTable next = Err msg ->
  table (snd (step sw e)) = table (snd sw)
  /\ added (snd sw) (snd (step sw e)) = [NewTableCall next; Log ("[WARN] " +:+ msg)]
  /\ count_SetTable (added (snd sw) (snd (step sw e))) = 0%nat
  /\ fst (step sw e) = receive e (fst sw)
  /\ forall more,
       watchBackend NewTable DiffMain quote cfg (wakes ++ e :: more) w0
       = fold_left step more (step sw e).
Proof.
  intros step sw next E.
  assert (Hne : next <> last (fst sw)).
  { apply (failing_text_not_applied Table NewTable (fst sw) e msg);
      [apply watchBackend_applied | exact E]. }
  subst step. split_and!.
  - rewrite (iteration_err _ _ _ _ _ _ _ _ Hne E). reflexivity.
  - apply added_err; assumption.
  - rewrite (added_err _ _ _ _ _ _ _ _ Hne E). reflexivity.
  - rewrite (iteration_err _ _ _ _ _ _ _ _ Hne E). reflexivity.
  - intros more. rewrite watchBackend_snoc. reflexivity.
Qed.

Lemma second_wake_counts {Table : Type} (NewTable : string -> result Table)
    (DiffMain : string -> string -> bool -> list Diff) (quote : string -> string)
    (format : string) (sw : Loop * World Table) (e e' : Wake) :
  merged (receive e' (fst (iteration NewTable DiffMain quote format sw e)))
  = merged (receive e (fst sw)) ->
  count_NewTable (added (snd (iteration NewTable DiffMain quote format sw e))
    (snd (iteration NewTable DiffMain quote format
            (iteration NewTable DiffMain quote format sw e) e')))
  = (if decide (merged (receive e (fst sw))
                = last (fst (iteration NewTable DiffMain quote format sw e)))
     then 0 else 1)%nat
  /\ count_SetTable (added (snd (iteration NewTable DiffMain quote format sw e))
    (snd (iteration NewTable DiffMain quote format
            (iteration NewTable DiffMain quote format sw e) e')))
  = (if decide (merged (receive e (fst sw))
                = last (fst (iteration NewTable DiffMain quote format sw e)))
     then 0
     else match NewTable (merged (receive e (fst sw))) with
          | Ok _ => 1 | Err _ => 0 end)%nat.
Proof.
  intros Hsame. rewrite count_NewTable_added, count_SetTable_added, Hsame. auto.
Qed.

(** C2, as the code has it: the merged text is the service config, a
    newline, then the manual config; [route.NewTable] is called exactly when
    that text differs from the applied one, and a table is published exactly
    when it differs and parses.  Of two wakes in a row with the same merged
    text: when the text is the applied one neither wake parses; when it
    differs and parses, the first wake parses and publishes once and the
    second does nothing; when it differs and fails to parse, the applied
    text and the table stay as they were, the text is parsed on both wakes
    and nothing is published.  The two wakes never publish more than one
    table. *)
Theorem rebuild_only_when_merged_text_changes {Table : Type}
    (NewTable : string -> result Table)
    (DiffMain : string -> string -> bool -> list Diff) (quote : string -> string)
    (format : string) (sw : Loop * World Table) (e e' : Wake) :
  let step := iteration NewTable DiffMain quote format in
  let st := receive e (fst sw) in
  let next := merged st in
  let sw1 := step sw e in
  let sw2 := step sw1 e' in
  next = svccfg st +:+ nl +:+ mancfg st
  /\ count_NewTable (added (snd sw) (snd sw1))
     = (if decide (next = last (fst sw)) then 0 else 1)%nat
  /\ count_SetTable (added (snd sw) (snd sw1))
     = (if decide (next = last (fst sw)) then 0
        else match NewTable next with Ok _ => 1 | Err _ => 0 end)%nat
  /\ (next = last (fst sw) -> sw1 = (st, snd sw))
  /\ (merged (receive e' (fst sw1)) = next ->
      next = last (fst sw) \/ (exists t, NewTable next = Ok t) ->
      snd sw2 = snd sw1)
  /\ (merged (receive e' (fst sw1)) = next ->
      (count_SetTable (added (snd sw) (snd sw1))
       + count_SetTable (added (snd sw1) (snd sw2)) <= 1)%nat)
  /\ (merged (receive e' (fst sw1)) = next -> next = last (fst sw) ->
      (count_NewTable (added (snd sw) (snd sw1))
       + count_NewTable (added (snd sw1) (snd sw2)) = 0)%nat
      /\ (count_SetTable (added (snd sw) (snd sw1))
          + count_SetTable (added (snd sw1) (snd sw2)) = 0)%nat)
  /\ (merged (receive e' (fst sw1)) = next -> next <> last (fst sw) ->
      forall t, NewTable next = Ok t ->
      last (fst sw1) = next /\ table (snd sw1) = t
      /\ (count_NewTable (added (snd sw) (snd sw1))
          + count_NewTable (added (snd sw1) (snd sw2)) = 1)%nat
      /\ (count_SetTable (added (snd sw) (snd sw1))
          + count_SetTable (added (snd sw1) (snd sw2)) = 1)%nat)
  /\ (merged (receive e' (fst sw1)) = next -> next <> last (fst sw) ->
      forall msg, NewTable next = Err msg ->
      last (fst sw1) = last (fst sw) /\ table (snd sw1) = table (snd sw)
      /\ added (snd sw) (snd sw1) = [NewTableCall next; Log ("[WARN] " +:+ msg)]
      /\ added (snd sw1) (snd sw2) = [NewTableCall next; Log ("[WARN] " +:+ msg)]
      /\ (count_NewTable (added (snd sw) (snd sw1))
          + count_NewTable (added (snd sw1) (snd sw2)) = 2)%nat
      /\ (count_SetTable (added (snd sw) (snd sw1))
          + count_SetTable (added (snd sw1) (snd sw2)) = 0)%nat).
Proof.
  intros step st next sw1 sw2. subst step st next sw1 sw2.
  pose proof (last_iteration Table NewTable DiffMain quote format sw e) as HL.
  split_and!.
  - reflexivity.
  - apply count_NewTable_added.
  - apply count_SetTable_added.
  - apply iteration_noop.
  - intros Hsame Hcase.
    rewrite (iteration_noop Table NewTable DiffMain quote format
               (iteration NewTable DiffMain quote format sw e) e'); [reflexivity|].
    rewrite Hsame, HL.
    destruct (decide _) as [H|H]; [exact H|].
    destruct Hcase as [H'|[t Ht]]; [contradiction|]. rewrite Ht. reflexivity.
  - intros Hsame. rewrite !count_SetTable_added, Hsame, HL.
    destruct (decide (merged (receive e (fst sw)) = last (fst sw))) as [H|H].
    + destruct (decide _); [lia | contradiction].
    + destruct (NewTable (merged (receive e (fst sw)))) as [t|msg] eqn:E.
      * destruct (decide _); [lia | congruence].
      * destruct (decide _); lia.
  - intros Hsame Heq.
    destruct (second_wake_counts NewTable DiffMain quote format sw e e' Hsame) as [Hn Hs].
    assert (Hl : last (fst (iteration NewTable DiffMain quote format sw e)) = last (fst sw)).
    { rewrite (iteration_noop _ _ _ _ _ _ _ Heq). simpl. apply last_receive. }
    rewrite Hl in Hn, Hs. rewrite Hn, Hs, count_NewTable_added, count_SetTable_added.
    destruct (decide (merged (receive e (fst sw)) = last (fst sw))); [auto | contradiction].
  - intros Hsame Hne t E.
    destruct (second_wake_counts NewTable DiffMain quote format sw e e' Hsame) as [Hn Hs].
    assert (Hl : last (fst (iteration NewTable DiffMain quote format sw e))
                 = merged (receive e (fst sw))).
    { rewrite (iteration_ok _ _ _ _ _ _ _ _ Hne E). reflexivity. }
    rewrite Hl in Hn, Hs. rewrite Hn, Hs, count_NewTable_added, count_SetTable_added, E.
    split; [exact Hl|].
    split; [rewrite (iteration_ok _ _ _ _ _ _ _ _ Hne E); reflexivity|].
    destruct (decide (merged (receive e (fst sw)) = last (fst sw))); [contradiction|].
    destruct (decide (merged (receive e (fst sw)) = merged (receive e (fst sw))));
      [auto | congruence].
  - intros Hsame Hne msg E.
    destruct (second_wake_counts NewTable DiffMain quote format sw e e' Hsame) as [Hn Hs].
    assert (Hl : last (fst (iteration NewTable DiffMain quote format sw e)) = last (fst sw)).
    { rewrite (iteration_err _ _ _ _ _ _ _ _ Hne E). simpl. apply last_receive. }
    rewrite Hl in Hn, Hs. rewrite Hn, Hs, count_NewTable_added, count_SetTable_added, E.
    destruct (decide (merged (receive e (fst sw)) = last (fst sw))); [contradiction|].
    split_and!; try reflexivity.
    + exact Hl.
    + rewrite (iteration_err _ _ _ _ _ _ _ _ Hne E). reflexivity.
    + apply added_err; assumption.
    + rewrite <- Hsame. apply added_err; rewrite Hsame; [rewrite Hl; exact Hne | exact E].
Qed.

(** C4: a wake records the arriving value in its own half of the pending
    pair only; the other half keeps the value it last received (the empty
    string at first) and is the one used for the merged text of this wake,
    the text that is compared with the applied one and parsed. *)
Theorem wake_updates_only_its_half {Table : Type}
    (NewTable : string -> result Table)
    (DiffMain : string -> string -> bool -> list Diff) (quote : string -> string)
    (cfg : config.Config) :
  let step := iteration NewTable DiffMain quote (config.LogRoutes (config.proxy cfg)) in
  let used sw text sw' :=
    (text = last (fst sw) /\ snd sw' = snd sw) \/
    (text <> last (fst sw) /\
     exists rest, added (snd sw) (snd sw') = NewTableCall text :: rest) in
  (svccfg loop_init = "" /\ mancfg loop_init = "")
  /\ (forall (sw : Loop * World Table) s,
        svccfg (fst (step sw (FromSvc s))) = s
        /\ mancfg (fst (step sw (FromSvc s))) = mancfg (fst sw)
        /\ used sw (s +:+ nl +:+ mancfg (fst sw)) (step sw (FromSvc s)))
  /\ (forall (sw : Loop * World Table) s,
        mancfg (fst (step sw (FromMan s))) = s
        /\ svccfg (fst (step sw (FromMan s))) = svccfg (fst sw)
        /\ used sw (svccfg (fst sw) +:+ nl +:+ s) (step sw (FromMan s)))
  /\ (forall wakes (w0 : World Table),
        svccfg (fst (watchBackend NewTable DiffMain quote cfg wakes w0)) = last_from_svc wakes
        /\ mancfg (fst (watchBackend NewTable DiffMain quote cfg wakes w0)) = last_from_man wakes).
Proof.
  intros step used.
  assert (Hused : forall (sw : Loop * World Table) e,
             used sw (merged (receive e (fst sw))) (step sw e)).
  { intros sw e. unfold used, step.
    destruct (decide (merged (receive e (fst sw)) = last (fst sw))) as [H|H].
    - left. split; [exact H|]. rewrite (iteration_noop _ _ _ _ _ _ _ H). reflexivity.
    - right. split; [exact H|].
      destruct (NewTable (merged (receive e (fst sw)))) as [t|msg] eqn:E.
      + rewrite (added_ok _ _ _ _ _ _ _ _ H E). eexists. reflexivity.
      + rewrite (added_err _ _ _ _ _ _ _ _ H E). eexists. reflexivity. }
  split_and!; try reflexivity.
  - intros sw s. split_and!.
    + apply (iteration_halves Table NewTable DiffMain quote _ sw (FromSvc s)).
    + apply (iteration_halves Table NewTable DiffMain quote _ sw (FromSvc s)).
    + apply (Hused sw (FromSvc s)).
  - intros sw s. split_and!.
    + apply (iteration_halves Table NewTable DiffMain quote _ sw (FromMan s)).
    + apply (iteration_halves Table NewTable DiffMain quote _ sw (FromMan s)).
    + apply (Hused sw (FromMan s)).
  - intros wakes w0. unfold watchBackend. apply halves_fold.
Qed.

(** C9: [last] changes only in an iteration that parsed the merged text and
    published its table, and then it is that text; so after a parse failure
    a wake with the same merged text parses it again: the comparison with
    the applied text does not hold the retry back. *)
Theorem failed_text_is_parsed_again {Table : Type}
    (NewTable : string -> result Table)
    (DiffMain : string -> string -> bool -> list Diff) (quote : string -> string)
    (cfg : config.Config) :
  let step := iteration NewTable DiffMain quote (config.LogRoutes (config.proxy cfg)) in
  (forall (sw : Loop * World Table) e,
      last (fst (step sw e)) <> last (fst sw) ->
      exists t, NewTable (merged (receive e (fst sw))) = Ok t
                /\ table (snd (step sw e)) = t
                /\ In (SetTableCall t) (added (snd sw) (snd (step sw e)))
                /\ last (fst (step sw e)) = merged (receive e (fst sw)))
  /\ (forall wakes (w0 : World Table) e e' msg,
        let sw := watchBackend NewTable DiffMain quote cfg wakes w0 in
        let next := merged (receive e (fst sw)) in
        NewTable next = Err msg ->
        merged (receive e' (fst (step sw e))) = next ->
        last (fst (step sw e)) = last (fst sw)
        /\ added (snd (step sw e)) (snd (step (step sw e) e'))
           = [NewTableCall next; Log ("[WARN] " +:+ msg)]).
Proof.
  intros step. subst step. split.
  - intros sw e Hl. rewrite last_iteration in Hl.
    destruct (decide (merged (receive e (fst sw)) = last (fst sw))) as [H|H];
      [contradiction|].
    destruct (NewTable (merged (receive e (fst sw)))) as [t|msg] eqn:E;
      [|contradiction].
    exists t. split_and!.
    + reflexivity.
    + rewrite (iteration_ok _ _ _ _ _ _ _ _ H E). reflexivity.
    + rewrite (added_ok _ _ _ _ _ _ _ _ H E). simpl. auto.
    + rewrite (iteration_ok _ _ _ _ _ _ _ _ H E). reflexivity.
  - intros wakes w0 e e' msg sw next E Hsame.
    assert (Hne : next <> last (fst sw)).
    { apply (failing_text_not_applied Table NewTable (fst sw) e msg);
        [apply watchBackend_applied | exact E]. }
    assert (Hl : last (fst (iteration NewTable DiffMain quote
                   (config.LogRoutes (config.proxy cfg)) sw e)) = last (fst sw)).
    { rewrite (iteration_err _ _ _ _ _ _ _ _ Hne E). simpl. apply last_receive. }
    split; [exact Hl|].
    rewrite <- Hsame. apply added_err; rewrite Hsame; [rewrite Hl; exact Hne | exact E].
Qed.

(** ** Backend initialisation *)
Section InitBackendFacts.

Variable cfg : config.Config.
Variable start : Z.
Variable world : nat -> Round.

Local Abbreviation retry := (config.Retry (config.registry cfg)).
Local Abbreviation run := (initBackend_from cfg start world).
Local Abbreviation warn e := (InitLog ("[WARN] Error initializing backend. " +:+ e)).
Local Abbreviation timeout := (Fatal "[FATAL] Timeout registering backend.").

Lemma attempt_failure (k : BackendKind) (r : Round) :
  snd (attempt k r) = failure r.
Proof. unfold attempt, failure. destruct (created r), (registered r); reflexivity. Qed.

Lemma attempts_attempt (k : BackendKind) (r : Round) :
  attempts (fst (attempt k r)) = 1%nat.
Proof. unfold attempt. destruct (created r), (registered r); reflexivity. Qed.

Lemma attempts_app (a b : list InitEvent) :
  attempts (a ++ b) = (attempts a + attempts b)%nat.
Proof. unfold attempts. rewrite List.filter_app, length_app. reflexivity. Qed.

Lemma run_unknown (fuel i : nat) (tr : list InitEvent) :
  backend_kind (config.Backend (config.registry cfg)) = None ->
  run (S fuel) i tr =
  (tr, Some (Some (Fatal ("[FATAL] Unknown registry backend "
                          +:+ config.Backend (config.registry cfg))))).
Proof. intros H. simpl. rewrite H. reflexivity. Qed.

Lemma run_success (k : BackendKind) (fuel i : nat) (tr : list InitEvent) :
  backend_kind (config.Backend (config.registry cfg)) = Some k ->
  failure (world i) = None ->
  run (S fuel) i tr = (tr ++ [NewBackendCall k; RegisterCall], Some None).
Proof.
  intros H F. simpl. rewrite H. unfold failure in F. unfold attempt.
  destruct (created (world i)); [|discriminate].
  destruct (registered (world i)); [reflexivity | discriminate].
Qed.

Lemma run_timeout (k : BackendKind) (fuel i : nat) (tr : list InitEvent) (e : string) :
  backend_kind (config.Backend (config.registry cfg)) = Some k ->
  failure (world i) = Some e ->
  now (world i) > deadline cfg start ->
  run (S fuel) i tr =
  (tr ++ fst (attempt k (world i)) ++ [warn e], Some (Some timeout)).
Proof.
  intros H F T. simpl. rewrite H.
  pose proof (attempt_failure k (world i)) as A. rewrite F in A.
  destruct (attempt k (world i)) as [evs err]. simpl in A. subst err. simpl.
  destruct (decide _); [reflexivity | contradiction].
Qed.

Lemma run_shutdown (k : BackendKind) (fuel i : nat) (tr : list InitEvent) (e : string) :
  backend_kind (config.Backend (config.registry cfg)) = Some k ->
  failure (world i) = Some e ->
  now (world i) <= deadline cfg start ->
  shuttingDown (world i) = true ->
  run (S fuel) i tr =
  ((tr ++ fst (attempt k (world i)) ++ [warn e]) ++ [Sleep retry], Some (Some (Exit 1))).
Proof.
  intros H F T D. simpl. rewrite H.
  pose proof (attempt_failure k (world i)) as A. rewrite F in A.
  destruct (attempt k (world i)) as [evs err]. simpl in A. subst err. simpl.
  destruct (decide _); [lia|]. rewrite D. reflexivity.
Qed.

Lemma run_retry (k : BackendKind) (fuel i : nat) (tr : list InitEvent) (e : string) :
  backend_kind (config.Backend (config.registry cfg)) = Some k ->
  failure (world i) = Some e ->
  now (world i) <= deadline cfg start ->
  shuttingDown (world i) = false ->
  run (S fuel) i tr =
  run fuel (S i) ((tr ++ fst (attempt k (world i)) ++ [warn e]) ++ [Sleep retry]).
Proof.
  intros H F T D. simpl. rewrite H.
  pose proof (attempt_failure k (world i)) as A. rewrite F in A.
  destruct (attempt k (world i)) as [evs err]. simpl in A. subst err. simpl.
  destruct (decide _); [lia|]. rewrite D. reflexivity.
Qed.

(** Failures up to a round that is checked after the deadline: the loop
    stops within these rounds. *)
Lemma run_stops_at_deadline (k : BackendKind) (d i : nat) (tr : list InitEvent) :
  backend_kind (config.Backend (config.registry cfg)) = Some k ->
  (forall j, (i <= j <= i + d)%nat -> failure (world j) <> None) ->
  now (world (i + d)) > deadline cfg start ->
  exists n, (n <= S d)%nat /\ stopped_by world (run n i tr).
Proof.
  intros H. revert i tr. induction d as [|d IH]; intros i tr F T.
  - exists 1%nat. split; [lia|]. left.
    destruct (failure (world i)) as [e|] eqn:E; [|exfalso; apply (F i); [lia | exact E]].
    replace (i + 0)%nat with i in T by lia.
    rewrite (run_timeout k _ _ _ e H E T). reflexivity.
  - destruct (failure (world i)) as [e|] eqn:E; [|exfalso; apply (F i); [lia | exact E]].
    destruct (decide (now (world i) > deadline cfg start)) as [T'|T'].
    { exists 1%nat. split; [lia|]. left. rewrite (run_timeout k _ _ _ e H E T'). reflexivity. }
    destruct (shuttingDown (world i)) eqn:D.
    { exists 1%nat. split; [lia|]. right.
      rewrite (run_shutdown k _ _ _ e H E ltac:(lia) D). split; [reflexivity | eauto]. }
    destruct (IH (S i) ((tr ++ fst (attempt k (world i)) ++ [warn e]) ++ [Sleep retry]))
      as (n & Hn & Hs).
    + intros j Hj. apply F. lia.
    + replace (S i + d)%nat with (i + S d)%nat by lia. exact T.
    + destruct n as [|n].
      * destruct Hs as [Hs|[Hs _]]; discriminate.
      * exists (S (S n)). split; [lia|].
        rewrite (run_retry k _ _ _ e H E ltac:(lia) D). exact Hs.
Qed.

(** With a positive retry delay and a clock that runs, a loop whose every
    attempt fails stops once the rounds have used up the time left. *)
Lemma run_stops_by_clock (k : BackendKind) (n i : nat) (tr : list InitEvent) :
  backend_kind (config.Backend (config.registry cfg)) = Some k ->
  (forall j, failure (world j) <> None) ->
  (forall j, now (world j) + retry <= now (world (S j))) ->
  deadline cfg start - now (world i) < Z.of_nat n * retry ->
  stopped_by world (run (S n) i tr).
Proof.
  intros H F C. revert i tr. induction n as [|n IH]; intros i tr Hd.
  - destruct (failure (world i)) as [e|] eqn:E; [|exfalso; exact (F i E)].
    left. rewrite (run_timeout k _ _ _ e H E ltac:(lia)). reflexivity.
  - destruct (failure (world i)) as [e|] eqn:E; [|exfalso; exact (F i E)].
    destruct (decide (now (world i) > deadline cfg start)) as [T'|T'].
    { left. rewrite (run_timeout k _ _ _ e H E T'). reflexivity. }
    destruct (shuttingDown (world i)) eqn:D.
    { right. rewrite (run_shutdown k _ _ _ e H E ltac:(lia) D). split; [reflexivity | eauto]. }
    rewrite (run_retry k _ _ _ e H E ltac:(lia) D).
    apply IH. specialize (C i). lia.
Qed.

Lemma rounds_bound (t r : Z) :
  0 < r -> t < Z.of_nat (S (Z.to_nat (t / r))) * r.
Proof.
  intros Hr. rewrite Nat2Z.inj_succ.
  destruct (Z_lt_le_dec t 0) as [Ht|Ht].
  - assert (t / r < 0) by (apply Z.div_lt_upper_bound; lia).
    replace (Z.to_nat (t / r)) with 0%nat by lia. lia.
  - rewrite Z2Nat.id by (apply Z.div_pos; lia).
    pose proof (Z.mul_succ_div_gt t r Hr). lia.
Qed.

End InitBackendFacts.

(** C7: a failed attempt (the backend is not created, or does not
    register) checked before the deadline is followed by a sleep of
    [cfg.Registry.Retry] and then by the next attempt (by [exit.Exit(1)]
    when the shutdown flag is up after the sleep); a failed attempt checked
    after the deadline (start plus [cfg.Registry.Timeout]) is fatal;
    failures that persist beyond the deadline stop the loop, which does not
    retry for ever; a successful [Register] returns at once. *)
Theorem initBackend_retries_until_deadline
    (cfg : config.Config) (start : Z) (world : nat -> Round) (k : BackendKind) :
  backend_kind (config.Backend (config.registry cfg)) = Some k ->
  let retry := config.Retry (config.registry cfg) in
  let run := initBackend_from cfg start world in
  let warn e := InitLog ("[WARN] Error initializing backend. " +:+ e) in
  (forall fuel i tr,
      failure (world i) = None ->
      run (S fuel) i tr = (tr ++ [NewBackendCall k; RegisterCall], Some None))
  /\ (forall fuel i tr e,
        failure (world i) = Some e ->
        now (world i) <= deadline cfg start ->
        let slept := (tr ++ fst (attempt k (world i)) ++ [warn e]) ++ [Sleep retry] in
        run (S fuel) i tr =
        if shuttingDown (world i) then (slept, Some (Some (Exit 1)))
        else run fuel (S i) slept)
  /\ (forall fuel i tr e,
        failure (world i) = Some e ->
        now (world i) > deadline cfg start ->
        run (S fuel) i tr =
        (tr ++ fst (attempt k (world i)) ++ [warn e],
         Some (Some (Fatal "[FATAL] Timeout registering backend."))))
  /\ (forall i,
        (forall j, (j <= i)%nat -> failure (world j) <> None) ->
        now (world i) > deadline cfg start ->
        exists n, (n <= S i)%nat /\ stopped_by world (initBackend cfg start world n))
  /\ (0 < retry -> clock_runs cfg start world ->
      (forall j, failure (world j) <> None) ->
      stopped_by world
        (initBackend cfg start world
           (S (S (Z.to_nat (config.Timeout (config.registry cfg) / retry)))))).
Proof.
  intros H retry run warn. subst retry run warn. split_and!.
  - intros fuel i tr F. apply (run_success cfg start world k); assumption.
  - intros fuel i tr e F T slept. subst slept.
    destruct (shuttingDown (world i)) eqn:D.
    + apply (run_shutdown cfg start world k); assumption.
    + apply (run_retry cfg start world k); assumption.
  - intros fuel i tr e F T. apply (run_timeout cfg start world k); assumption.
  - intros i F T. unfold initBackend.
    apply (run_stops_at_deadline cfg start world k i 0 [] H).
    + intros j Hj. apply F. lia.
    + exact T.
  - intros Hr [C0 C] F. unfold initBackend.
    apply (run_stops_by_clock cfg start world k); try assumption.
    pose proof (rounds_bound (config.Timeout (config.registry cfg)) _ Hr).
    unfold deadline. lia.
Qed.

(** C10: when the flag of the shutdown coordinator is up after the sleep
    that follows a failed attempt, the process exits with status 1: the
    sleep is the last event, no backend is created or registered after
    it. *)
Theorem shutdown_after_retry_sleep_exits
    (cfg : config.Config) (start : Z) (world : nat -> Round) (k : BackendKind)
    (fuel i : nat) (tr : list InitEvent) (e : string) :
  backend_kind (config.Backend (config.registry cfg)) = Some k ->
  failure (world i) = Some e ->
  now (world i) <= deadline cfg start ->
  shuttingDown (world i) = true ->
  let r := initBackend_from cfg start world (S fuel) i tr in
  snd r = Some (Some (Exit 1))
  /\ fst r = (tr ++ fst (attempt k (world i))
                 ++ [InitLog ("[WARN] Error initializing backend. " +:+ e)])
             ++ [Sleep (config.Retry (config.registry cfg))]
  /\ attempts (fst r) = (attempts tr + 1)%nat.
Proof.
  intros H F T D r. subst r.
  rewrite (run_shutdown cfg start world k fuel i tr e H F T D). simpl.
  split_and!; try reflexivity.
  rewrite !attempts_app, attempts_attempt. unfold attempts. simpl. lia.
Qed.

(** ** Startup and the lookups of the proxies *)

Lemma initBackend_unknown (cfg : config.Config) (start : Z) (world : nat -> Round)
    (fuel : nat) :
  backend_kind (config.Backend (config.registry cfg)) = None ->
  initBackend cfg start world (S fuel) =
  ([], Some (Some (Fatal ("[FATAL] Unknown registry backend "
                          +:+ config.Backend (config.registry cfg))))).
Proof. intros H. unfold initBackend. apply run_unknown. exact H. Qed.

(** C3: for every configuration whose picker name, matcher name or registry
    backend name is not a known one, the startup fails fast: the process is
    ended by [exit.Fatal] (by a panic of [toJSON] at the latest) and never
    reaches the serving state.  An unknown picker or matcher name is the
    error of [config.Load], fatal before anything else is started; an
    unknown backend name is fatal in the first round of [initBackend],
    before any backend is created. *)
Theorem unknown_names_are_fatal_at_startup
    {picker matcher : Type} (Picker : gmap string picker)
    (Matcher : gmap string matcher) (quote : string -> string)
    (cfg : config.Config) (s : Startup) (fuel : nat) :
  ~ known_names Picker Matcher cfg ->
  exists p,
    main Picker Matcher quote (S fuel) (Load Picker Matcher (Settings cfg)) s = Some p
    /\ failed_fast p
    /\ (Picker !! config.Strategy (config.proxy cfg) = None
        \/ Matcher !! config.Matcher (config.proxy cfg) = None ->
        exists e, Load Picker Matcher (Settings cfg) = LoadError e
                  /\ p = Stopped (Fatal ("[FATAL] " +:+ version +:+ ". " +:+ e)))
    /\ (is_Some (Picker !! config.Strategy (config.proxy cfg)) ->
        is_Some (Matcher !! config.Matcher (config.proxy cfg)) ->
        initBackend cfg (start_time s) (rounds s) (S fuel)
        = ([], Some (Some (Fatal ("[FATAL] Unknown registry backend "
                                  +:+ config.Backend (config.registry cfg)))))
        /\ (forall data, configJSON s = Ok data -> initMetrics cfg s = None ->
              p = Stopped (Fatal ("[FATAL] Unknown registry backend "
                                  +:+ config.Backend (config.registry cfg))))).
Proof.
  intros Hk. unfold known_names in Hk. unfold Load.
  destruct (Picker !! config.Strategy (config.proxy cfg)) as [pk|] eqn:EP.
  2:{ eexists. split; [reflexivity|]. split; [exact I|]. split.
      - intros _. eexists. split; reflexivity.
      - intros [x Hx]. discriminate. }
  destruct (Matcher !! config.Matcher (config.proxy cfg)) as [mt|] eqn:EM.
  2:{ eexists. split; [reflexivity|]. split; [exact I|]. split.
      - intros _. eexists. split; reflexivity.
      - intros _ [x Hx]. discriminate. }
  destruct (backend_kind (config.Backend (config.registry cfg))) as [k|] eqn:EB.
  { exfalso. apply Hk. eauto. }
  pose proof (initBackend_unknown cfg (start_time s) (rounds s) fuel EB) as HB.
  assert (Hno : Some pk = None \/ Some mt = None ->
                forall q : Process picker matcher,
                exists e, @LoadConfig cfg = LoadError e
                          /\ q = Stopped (Fatal ("[FATAL] " +:+ version +:+ ". " +:+ e))).
  { intros [H|H]; discriminate. }
  unfold main, toJSON.
  destruct (configJSON s) as [data|e] eqn:EJ.
  - destruct (initMetrics cfg s) as [stop|] eqn:M.
    + exists (Stopped stop). split; [reflexivity|].
      assert (Hf : exists msg, stop = Fatal msg).
      { unfold initMetrics in M. destruct (decide _); [discriminate|].
        destruct (defaultRegistry s); [|inversion M; eauto].
        destruct (serviceRegistry s); [discriminate | inversion M; eauto]. }
      destruct Hf as [msg ->]. split; [exact I|]. split; [intros H; apply Hno, H|].
      intros _ _. split; [exact HB|]. intros data' _ HM. discriminate.
    + rewrite HB. simpl. eexists. split; [reflexivity|]. split; [exact I|].
      split; [intros H; apply Hno, H|].
      intros _ _. split; [reflexivity|]. intros data' _ _. reflexivity.
  - eexists. split; [reflexivity|]. split; [exact I|].
    split; [intros H; apply Hno, H|].
    intros _ _. split; [exact HB|]. intros data' HJ. discriminate.
Qed.

(** C8: when the lookup in the table finds no target, the [Lookup] function
    of either proxy logs the "No route" warning and returns nothing; it
    returns to its caller as for any other lookup. *)
Theorem lookup_without_route_returns_none
    {Table RouteTarget picker matcher : Type} (Picker : gmap string picker)
    (Lookup : Table -> Request -> string -> option picker -> option matcher
              -> option RouteTarget)
    (LookupHost : Table -> string -> option picker -> option RouteTarget) :
  (forall pick mtch t r,
      Lookup t r (trace r) pick mtch = None ->
      httpLookup Lookup pick mtch t r
      = (None, ["[WARN] No route for " +:+ Host r +:+ URL r]))
  /\ (forall cfg t serverName,
        LookupHost t serverName (Picker !! config.Strategy (config.proxy cfg)) = None ->
        tcpLookup Picker LookupHost cfg t serverName
        = (None, ["[WARN] No route for " +:+ serverName])).
Proof.
  split.
  - intros pick mtch t r H. unfold httpLookup. rewrite H. reflexivity.
  - intros cfg t name H. unfold tcpLookup. rewrite H. reflexivity.
Qed.

(** * The program on sample inputs *)

Example TrimSpace_sample :
  TrimSpace (" " +:+ nl +:+ "route add  " +:+ bytes [194; 160]%nat) = "route add".
Proof. vm_compute. reflexivity. Qed.

(** Bytes that are no encoding of a space rune stay: a lone continuation
    byte in front, a lone lead byte at the end. *)
Example TrimSpace_invalid_utf8 :
  TrimSpace (bytes [128; 32; 97; 32; 194]%nat) = bytes [128; 32; 97; 32; 194]%nat
  /\ TrimSpace (bytes [226; 128; 128; 160]%nat) = bytes [160]%nat.
Proof. vm_compute. auto. Qed.

Example TrimSpace_blank : TrimSpace (" " +:+ nl +:+ bytes [9; 227; 128; 128]%nat) = "".
Proof. vm_compute. reflexivity. Qed.

Example Replace_overlap : Replace "aaa" "aa" "b" = "ba".
Proof. vm_compute. reflexivity. Qed.

Example Replace_sample :
  Replace ("a" +:+ nl +:+ "b" +:+ nl) nl (nl +:+ "- ")
  = "a" +:+ nl +:+ "- b" +:+ nl +:+ "- ".
Proof. vm_compute. reflexivity. Qed.

Example lines_sample : lines ("a" +:+ nl +:+ nl +:+ "b") = ["a"; ""; "b"].
Proof. vm_compute. reflexivity. Qed.

Example Sample_NewTable_ok :
  Sample.NewTable ("# routes" +:+ nl +:+ SampleRun.good_line +:+ nl)
  = Ok [ {| Sample.service := "svc1"; Sample.src := "/foo";
            Sample.dst := "http://10.0.0.1:8080" |} ].
Proof. vm_compute. reflexivity. Qed.

Example Sample_NewTable_err :
  Sample.NewTable (SampleRun.bad_line +:+ nl) = Err "syntax error: 'route add'".
Proof. vm_compute. reflexivity. Qed.

(** Adjacent fragments are written one after the other, with nothing in
    between. *)
Example fmtDiff_sample :
  fmtDiff [ {| Type_ := DiffEqual; Text := "route add svc1 " |};
            {| Type_ := DiffDelete; Text := "/foo" |};
            {| Type_ := DiffInsert; Text := "/bar" +:+ nl +:+ "/baz" |};
            {| Type_ := DiffInsert; Text := " " +:+ nl |} ]
  = "- /foo+ /bar" +:+ nl +:+ "+ /baz".
Proof. vm_compute. reflexivity. Qed.

Example initBackend_recovering :
  initBackend SampleRun.consul_cfg 0 SampleRun.recovering 5
  = ([ NewBackendCall ConsulBackend;
       InitLog "[WARN] Error initializing backend. connection refused"; Sleep 1;
       NewBackendCall ConsulBackend; RegisterCall;
       InitLog "[WARN] Error initializing backend. no cluster leader"; Sleep 1;
       NewBackendCall ConsulBackend; RegisterCall ],
     Some None).
Proof. vm_compute. reflexivity. Qed.

Example initBackend_down :
  snd (initBackend SampleRun.consul_cfg 0 SampleRun.down 11)
  = Some (Some (Fatal "[FATAL] Timeout registering backend."))
  /\ snd (initBackend SampleRun.consul_cfg 0 SampleRun.down 10) = None
  /\ attempts (fst (initBackend SampleRun.consul_cfg 0 SampleRun.down 11)) = 11%nat.
Proof. vm_compute. auto. Qed.

Example initBackend_signal :
  initBackend SampleRun.consul_cfg 0 (SampleRun.down_until_signal 1) 5
  = ([ NewBackendCall ConsulBackend;
       InitLog "[WARN] Error initializing backend. connection refused"; Sleep 1;
       NewBackendCall ConsulBackend;
       InitLog "[WARN] Error initializing backend. connection refused"; Sleep 1 ],
     Some (Some (Exit 1))).
Proof. vm_compute. reflexivity. Qed.

(** * The theorems at sample inputs *)

Lemma parse_failure_leaves_table_store_witness :
  let sw := SampleRun.watch [FromSvc SampleRun.good_line] in
  let sw' := iteration Sample.NewTable Sample.DiffMain Sample.quote "delta" sw
               (FromMan SampleRun.bad_line) in
  Sample.NewTable (merged (receive (FromMan SampleRun.bad_line) (fst sw)))
    = Err "syntax error: 'route add'"
  /\ table (snd sw') = table (snd sw)
  /\ table (snd sw') = [ {| Sample.service := "svc1"; Sample.src := "/foo";
                            Sample.dst := "http://10.0.0.1:8080" |} ]
  /\ added (snd sw) (snd sw')
     = [NewTableCall (SampleRun.good_line +:+ nl +:+ SampleRun.bad_line);
        Log "[WARN] syntax error: 'route add'"].
Proof.
  intros sw sw'.
  assert (E : Sample.NewTable (merged (receive (FromMan SampleRun.bad_line) (fst sw)))
              = Err "syntax error: 'route add'") by (vm_compute; reflexivity).
  destruct (parse_failure_leaves_table_store Sample.NewTable Sample.DiffMain
              Sample.quote SampleRun.consul_cfg [FromSvc SampleRun.good_line]
              SampleRun.empty_world (FromMan SampleRun.bad_line) _ E)
    as (Ht & Ha & _).
  split; [exact E|]. split; [exact Ht|]. split; [vm_compute; reflexivity | exact Ha].
Defined.

(** Counterexample to C2 as it is written: a pair whose merged text does
    not parse, received twice in a row, is parsed twice and no table is
    published. *)
Lemma same_pair_twice_is_parsed_twice :
  let w := snd (SampleRun.watch [FromSvc SampleRun.bad_line; FromSvc SampleRun.bad_line]) in
  effects w = [ NewTableCall (SampleRun.bad_line +:+ nl);
                Log "[WARN] syntax error: 'route add'";
                NewTableCall (SampleRun.bad_line +:+ nl);
                Log "[WARN] syntax error: 'route add'" ]
  /\ count_NewTable (effects w) = 2%nat
  /\ count_SetTable (effects w) = 0%nat.
Proof. vm_compute. auto. Qed.

Lemma rebuild_only_when_merged_text_changes_witness :
  let step := iteration Sample.NewTable Sample.DiffMain Sample.quote "delta" in
  let sw := SampleRun.watch [] in
  let sw1 := step sw (FromSvc SampleRun.good_line) in
  let sw2 := step sw1 (FromSvc SampleRun.good_line) in
  let bad1 := step sw (FromSvc SampleRun.bad_line) in
  let bad2 := step bad1 (FromSvc SampleRun.bad_line) in
  count_NewTable (added (snd sw) (snd sw1)) = 1%nat
  /\ count_SetTable (added (snd sw) (snd sw1)) = 1%nat
  /\ snd sw2 = snd sw1
  /\ last (fst bad1) = last (fst sw)
  /\ added (snd bad1) (snd bad2)
     = [NewTableCall (SampleRun.bad_line +:+ nl); Log "[WARN] syntax error: 'route add'"].
Proof.
  cbv zeta.
  destruct (rebuild_only_when_merged_text_changes Sample.NewTable Sample.DiffMain
              Sample.quote "delta" (SampleRun.watch []) (FromSvc SampleRun.bad_line)
              (FromSvc SampleRun.bad_line))
    as (_ & _ & _ & _ & _ & _ & _ & _ & Hbad).
  destruct (Hbad ltac:(vm_compute; reflexivity) ltac:(vm_compute; discriminate)
              "syntax error: 'route add'" ltac:(vm_compute; reflexivity))
    as (Hbl & _ & _ & Hb2 & _).
  destruct (rebuild_only_when_merged_text_changes Sample.NewTable Sample.DiffMain
              Sample.quote "delta" (SampleRun.watch []) (FromSvc SampleRun.good_line)
              (FromSvc SampleRun.good_line))
    as (_ & Hn & Hs & _ & Hsame & _).
  split; [rewrite Hn; vm_compute; reflexivity|].
  split; [rewrite Hs; vm_compute; reflexivity|].
  split; [apply Hsame; [vm_compute; reflexivity|];
          right; eexists; vm_compute; reflexivity|].
  split; [exact Hbl | exact Hb2].
Defined.

(** [main.go] itself has no check of the strategy names, the check is
    [Load]'s: handed a configuration with an unknown picker and matcher
    name, which [Load] never returns, [main] would build a proxy with no
    picker and no matcher. *)
Example main_relies_on_Load_for_strategy_names :
  Load Sample.Picker Sample.Matcher (Settings (SampleRun.cfg "static" "bogus" "nomatch"))
  = LoadError "invalid proxy.strategy: bogus"
  /\ exists p,
       main Sample.Picker Sample.Matcher Sample.quote 1
         (LoadConfig (SampleRun.cfg "static" "bogus" "nomatch"))
         (SampleRun.startup SampleRun.up)
       = Some (Serving p)
       /\ pick p = None /\ match_ p = None.
Proof.
  split; [vm_compute; reflexivity|].
  eexists. split; [vm_compute; reflexivity|]. split; vm_compute; reflexivity.
Qed.

Lemma unknown_names_are_fatal_witness :
  ~ known_names Sample.Picker Sample.Matcher (SampleRun.cfg "static" "bogus" "prefix")
  /\ ~ known_names Sample.Picker Sample.Matcher (SampleRun.cfg "etcd" "rnd" "prefix")
  /\ (exists p,
        main Sample.Picker Sample.Matcher Sample.quote 1
          (Load Sample.Picker Sample.Matcher
             (Settings (SampleRun.cfg "static" "bogus" "prefix")))
          (SampleRun.startup SampleRun.up) = Some p
        /\ failed_fast p
        /\ p = Stopped (Fatal "[FATAL] 1.3.8. invalid proxy.strategy: bogus"))
  /\ (exists p,
        main Sample.Picker Sample.Matcher Sample.quote 1
          (Load Sample.Picker Sample.Matcher
             (Settings (SampleRun.cfg "etcd" "rnd" "prefix")))
          (SampleRun.startup SampleRun.up) = Some p
        /\ failed_fast p
        /\ p = Stopped (Fatal "[FATAL] Unknown registry backend etcd")).
Proof.
  assert (H1 : ~ known_names Sample.Picker Sample.Matcher
                 (SampleRun.cfg "static" "bogus" "prefix")).
  { intros ([x Hx] & _). vm_compute in Hx. discriminate. }
  assert (H2 : ~ known_names Sample.Picker Sample.Matcher
                 (SampleRun.cfg "etcd" "rnd" "prefix")).
  { intros (_ & _ & [x Hx]). vm_compute in Hx. discriminate. }
  split; [exact H1|]. split; [exact H2|]. split.
  - destruct (unknown_names_are_fatal_at_startup Sample.Picker Sample.Matcher
                Sample.quote (SampleRun.cfg "static" "bogus" "prefix")
                (SampleRun.startup SampleRun.up) 0 H1) as (p & Hm & Hf & _).
    exists p. split; [exact Hm|]. split; [exact Hf|].
    vm_compute in Hm. injection Hm as <-. reflexivity.
  - destruct (unknown_names_are_fatal_at_startup Sample.Picker Sample.Matcher
                Sample.quote (SampleRun.cfg "etcd" "rnd" "prefix")
                (SampleRun.startup SampleRun.up) 0 H2) as (p & Hm & Hf & _).
    exists p. split; [exact Hm|]. split; [exact Hf|].
    vm_compute in Hm. injection Hm as <-. reflexivity.
Defined.

Lemma wake_updates_only_its_half_witness :
  let sw := SampleRun.watch [FromSvc "a"; FromMan "b"; FromSvc "c"] in
  svccfg (fst sw) = "c" /\ mancfg (fst sw) = "b"
  /\ merged (fst sw) = "c" +:+ nl +:+ "b".
Proof.
  intros sw.
  destruct (wake_updates_only_its_half Sample.NewTable Sample.DiffMain Sample.quote
              SampleRun.consul_cfg) as (_ & _ & _ & H).
  destruct (H [FromSvc "a"; FromMan "b"; FromSvc "c"] SampleRun.empty_world) as [Hs Hm].
  split; [exact Hs|]. split; [exact Hm|]. vm_compute. reflexivity.
Defined.

Lemma logRoutes_invalid_format_witness :
  "json" <> "delta" /\ "json" <> "all"
  /\ logRoutes Sample.DiffMain Sample.quote "" SampleRun.good_line "json"
     = [ "[WARN] Invalid route format " +:+ Sample.quote "json"
         +:+ ". Defaulting to " +:+ Sample.quote "delta";
         "[INFO] Config updates" +:+ nl +:+ "+ " +:+ SampleRun.good_line ].
Proof.
  assert (H1 : "json" <> "delta") by discriminate.
  assert (H2 : "json" <> "all") by discriminate.
  split; [exact H1|]. split; [exact H2|].
  rewrite (logRoutes_invalid_format_defaults_to_delta Sample.DiffMain Sample.quote
             "" SampleRun.good_line "json" H1 H2).
  vm_compute. reflexivity.
Defined.

(** Counterexample to C6 as it is written: a deletion followed by an
    insertion is written on one line, so the insertion does not stand on a
    line prefixed "+ "; whole lines are glued in the same way, their final
    newline being trimmed. *)
Lemma delta_fragments_share_a_line :
  let diffs := [ {| Type_ := DiffDelete; Text := "a" |};
                 {| Type_ := DiffInsert; Text := "b" |} ] in
  let whole := [ {| Type_ := DiffDelete; Text := "route add a /a http://a/" +:+ nl |};
                 {| Type_ := DiffInsert; Text := "route add b /b http://b/" +:+ nl |} ] in
  delta_lines diffs = ["- a"; "+ b"]
  /\ lines (fmtDiff diffs) = ["- a+ b"]
  /\ ~ In "+ b" (lines (fmtDiff diffs))
  /\ lines (fmtDiff whole) = ["- route add a /a http://a/+ route add b /b http://b/"]
  /\ logRoutes Sample.DiffMain Sample.quote "a" "b" "delta"
     = ["[INFO] Config updates" +:+ nl +:+ "- a+ b"].
Proof.
  cbv zeta. split_and!; try (vm_compute; reflexivity).
  vm_compute. intros [H|[]]. discriminate.
Qed.

Lemma logRoutes_delta_output_witness :
  logRoutes Sample.DiffMain Sample.quote "a" ("b" +:+ nl +:+ "c") "delta"
  = ["[INFO] Config updates" +:+ nl +:+ "- a+ b" +:+ nl +:+ "+ c"]
  /\ Forall marked (lines ("- a+ b" +:+ nl +:+ "+ c")).
Proof.
  destruct (logRoutes_delta_output_and_all_output Sample.DiffMain Sample.quote
              "a" ("b" +:+ nl +:+ "c")) as (_ & _ & _ & _ & _ & Hm & Hd & _ & _).
  split; [rewrite Hd; vm_compute; reflexivity|].
  destruct Hm as [Hm|Hm]; [vm_compute in Hm; discriminate | exact Hm].
Defined.

Lemma initBackend_retries_until_deadline_witness :
  backend_kind (config.Backend (config.registry SampleRun.consul_cfg)) = Some ConsulBackend
  /\ initBackend_from SampleRun.consul_cfg 0 SampleRun.recovering 3 0 []
     = initBackend_from SampleRun.consul_cfg 0 SampleRun.recovering 2 1
         [ NewBackendCall ConsulBackend;
           InitLog "[WARN] Error initializing backend. connection refused"; Sleep 1 ]
  /\ stopped_by SampleRun.down (initBackend SampleRun.consul_cfg 0 SampleRun.down 12).
Proof.
  assert (H : backend_kind (config.Backend (config.registry SampleRun.consul_cfg))
              = Some ConsulBackend) by reflexivity.
  destruct (initBackend_retries_until_deadline SampleRun.consul_cfg 0
              SampleRun.recovering ConsulBackend H) as (_ & Hr & _).
  destruct (initBackend_retries_until_deadline SampleRun.consul_cfg 0
              SampleRun.down ConsulBackend H) as (_ & _ & _ & _ & Hc).
  split; [exact H|]. split.
  - apply (Hr 2%nat 0%nat [] "connection refused"); [reflexivity | vm_compute; discriminate].
  - apply Hc.
    + reflexivity.
    + split; [vm_compute; discriminate|]. intros i. simpl. lia.
    + intros j. discriminate.
Defined.

Lemma shutdown_after_retry_sleep_exits_witness :
  let r := initBackend_from SampleRun.consul_cfg 0 (SampleRun.down_until_signal 0) 1 0 [] in
  snd r = Some (Some (Exit 1))
  /\ fst r = [ NewBackendCall ConsulBackend;
               InitLog "[WARN] Error initializing backend. connection refused"; Sleep 1 ]
  /\ attempts (fst r) = 1%nat.
Proof.
  apply (shutdown_after_retry_sleep_exits SampleRun.consul_cfg 0
           (SampleRun.down_until_signal 0) ConsulBackend 0 0 [] "connection refused");
    [reflexivity | reflexivity | vm_compute; discriminate | reflexivity].
Defined.

Lemma lookup_without_route_witness :
  httpLookup Sample.Lookup (Some Sample.rndPicker) (Some Sample.prefixMatcher) []
    {| Host := "example.com"; URL := "/nothing"; trace := "" |}
  = (None, ["[WARN] No route for example.com/nothing"])
  /\ tcpLookup Sample.Picker Sample.LookupHost SampleRun.consul_cfg [] "example.com"
     = (None, ["[WARN] No route for example.com"]).
Proof.
  destruct (lookup_without_route_returns_none Sample.Picker Sample.Lookup
              Sample.LookupHost) as [Hh Ht].
  split.
  - apply (Hh (Some Sample.rndPicker) (Some Sample.prefixMatcher) []
             {| Host := "example.com"; URL := "/nothing"; trace := "" |}).
    reflexivity.
  - apply (Ht SampleRun.consul_cfg [] "example.com"). reflexivity.
Defined.

Lemma failed_text_is_parsed_again_witness :
  let step := iteration Sample.NewTable Sample.DiffMain Sample.quote "delta" in
  let sw := SampleRun.watch [FromSvc SampleRun.good_line] in
  let sw1 := step sw (FromMan SampleRun.bad_line) in
  last (fst sw1) = SampleRun.good_line +:+ nl
  /\ added (snd sw1) (snd (step sw1 (FromMan SampleRun.bad_line)))
     = [NewTableCall (SampleRun.good_line +:+ nl +:+ SampleRun.bad_line);
        Log "[WARN] syntax error: 'route add'"].
Proof.
  cbv zeta.
  destruct (failed_text_is_parsed_again Sample.NewTable Sample.DiffMain Sample.quote
              SampleRun.consul_cfg) as [_ H].
  destruct (H [FromSvc SampleRun.good_line] SampleRun.empty_world
              (FromMan SampleRun.bad_line) (FromMan SampleRun.bad_line)
              "syntax error: 'route add'") as [Hl Ha].
  - vm_compute. reflexivity.
  - vm_compute. reflexivity.
  - split; [vm_compute; reflexivity | exact Ha].
Defined.

(** * Further properties of the reconciliation loop *)
Section WatchBackendRuns.

Variable Table : Type.
Variable NewTable : string -> result Table.
Variable DiffMain : string -> string -> bool -> list Diff.
Variable quote : string -> string.
Variable format : string.

Local Abbreviation step := (iteration NewTable DiffMain quote format).

Lemma store_matches_step (initial : Table) (sw : Loop * World Table) (e : Wake) :
  store_matches NewTable initial sw -> store_matches NewTable initial (step sw e).
Proof.
  intros H. unfold store_matches in *.
  destruct (decide (merged (receive e (fst sw)) = last (fst sw))) as [Heq|Hne].
  - rewrite (iteration_noop _ _ _ _ _ _ _ Heq). simpl. rewrite last_receive. exact H.
  - destruct (NewTable (merged (receive e (fst sw)))) as [t|msg] eqn:E.
    + rewrite (iteration_ok _ _ _ _ _ _ _ _ Hne E). simpl. right. exact E.
    + rewrite (iteration_err _ _ _ _ _ _ _ _ Hne E). simpl. rewrite last_receive. exact H.
Qed.

Lemma store_matches_fold (initial : Table) (wakes : list Wake) (sw : Loop * World Table) :
  store_matches NewTable initial sw ->
  store_matches NewTable initial (fold_left step wakes sw).
Proof.
  revert sw. induction wakes as [|e ws IH]; intros sw H; simpl; [exact H|].
  apply IH, store_matches_step, H.
Qed.

Lemma count_NewTable_app (a b : list (Effect Table)) :
  count_NewTable (a ++ b) = (count_NewTable a + count_NewTable b)%nat.
Proof. unfold count_NewTable. rewrite List.filter_app, length_app. reflexivity. Qed.

Lemma count_SetTable_app (a b : list (Effect Table)) :
  count_SetTable (a ++ b) = (count_SetTable a + count_SetTable b)%nat.
Proof. unfold count_SetTable. rewrite List.filter_app, length_app. reflexivity. Qed.

(** What one iteration appends to the history. *)
Lemma step_history (sw : Loop * World Table) (e : Wake) :
  exists a,
    effects (snd (step sw e)) = effects (snd sw) ++ a
    /\ (count_SetTable a <= count_NewTable a)%nat
    /\ (count_NewTable a <= 1)%nat
    /\ (forall t, In (SetTableCall t) a ->
          exists x, NewTable x = Ok t /\ In (NewTableCall x) a).
Proof.
  destruct (decide (merged (receive e (fst sw)) = last (fst sw))) as [Heq|Hne].
  - exists []. rewrite (iteration_noop _ _ _ _ _ _ _ Heq). simpl.
    rewrite List.app_nil_r. split_and!; auto. intros t [].
  - destruct (NewTable (merged (receive e (fst sw)))) as [t|msg] eqn:E.
    + exists ([NewTableCall (merged (receive e (fst sw))); SetTableCall t]
              ++ map Log (logRoutes DiffMain quote (last (fst sw))
                            (merged (receive e (fst sw))) format)).
      rewrite (iteration_ok _ _ _ _ _ _ _ _ Hne E).
      split; [reflexivity|].
      rewrite count_SetTable_app, count_NewTable_app.
      rewrite count_SetTable_logs, count_NewTable_logs.
      change (count_SetTable [NewTableCall (merged (receive e (fst sw))); @SetTableCall Table t])
        with 1%nat.
      change (count_NewTable [NewTableCall (merged (receive e (fst sw))); @SetTableCall Table t])
        with 1%nat.
      split_and!; try lia.
      intros t' Hin. apply in_app_or in Hin as [Hin|Hin].
      * destruct Hin as [Hin|[Hin|[]]]; [discriminate|]. inversion Hin; subst.
        exists (merged (receive e (fst sw))). split; [exact E|].
        apply in_or_app. left. left. reflexivity.
      * apply in_map_iff in Hin as (l & Hl & _). discriminate.
    + eexists. rewrite (iteration_err _ _ _ _ _ _ _ _ Hne E). simpl.
      split; [reflexivity|]. split_and!; try (cbv; lia).
      intros t' [Hin|[Hin|[]]]; discriminate.
Qed.

Lemma fold_history (wakes : list Wake) (sw : Loop * World Table) :
  exists ext,
    effects (snd (fold_left step wakes sw)) = effects (snd sw) ++ ext
    /\ (count_SetTable ext <= count_NewTable ext)%nat
    /\ (count_NewTable ext <= length wakes)%nat
    /\ (forall t, In (SetTableCall t) ext ->
          exists x, NewTable x = Ok t /\ In (NewTableCall x) ext).
Proof.
  revert sw. induction wakes as [|e ws IH]; intros sw; simpl.
  - exists []. rewrite List.app_nil_r. split_and!; auto. intros t [].
  - destruct (step_history sw e) as (a & Ha & Ha1 & Ha2 & Ha3).
    destruct (IH (step sw e)) as (b & Hb & Hb1 & Hb2 & Hb3).
    exists (a ++ b). rewrite Hb, Ha, <- List.app_assoc.
    rewrite count_SetTable_app, count_NewTable_app.
    split_and!; try reflexivity; try lia.
    intros t Hin. apply in_app_or in Hin as [Hin|Hin].
    + destruct (Ha3 t Hin) as (x & Hx & Hx'). exists x. split; [exact Hx|].
      apply in_or_app. left. exact Hx'.
    + destruct (Hb3 t Hin) as (x & Hx & Hx'). exists x. split; [exact Hx|].
      apply in_or_app. right. exact Hx'.
Qed.

Lemma added_ext (w w' : World Table) (ext : list (Effect Table)) :
  effects w' = effects w ++ ext -> added w w' = ext.
Proof. intros H. unfold added. rewrite H. apply drop_app_length. Qed.

(** While every merged text fails to parse, nothing is applied. *)
Lemma failing_run_keeps_state (more : list Wake) (sw : Loop * World Table) :
  applied NewTable (fst sw) ->
  Forall (fun x => exists msg, NewTable x = Err msg) (merged_texts (fst sw) more) ->
  last (fst (fold_left step more sw)) = last (fst sw)
  /\ table (snd (fold_left step more sw)) = table (snd sw)
  /\ count_SetTable (added (snd sw) (snd (fold_left step more sw))) = 0%nat
  /\ count_NewTable (added (snd sw) (snd (fold_left step more sw))) = length more.
Proof.
  revert sw. induction more as [|e ws IH]; intros sw Hap HF; simpl.
  - rewrite added_same. auto.
  - simpl in HF. inversion HF as [|x l [msg E] HF']; subst.
    pose proof (failing_text_not_applied Table NewTable (fst sw) e msg Hap E) as Hne.
    pose proof (iteration_err Table NewTable DiffMain quote format sw e msg Hne E) as Hs.
    destruct (IH (step sw e)) as (Hl & Ht & Hc & Hn).
    + apply applied_iteration. exact Hap.
    + rewrite Hs. simpl. exact HF'.
    + destruct (fold_history ws (step sw e)) as (ext & Hext & _).
      rewrite (added_ext _ _ ext Hext) in Hc, Hn.
      assert (Hall : effects (snd (fold_left step ws (step sw e)))
                     = effects (snd sw)
                       ++ ([NewTableCall (merged (receive e (fst sw)));
                            Log ("[WARN] " +:+ msg)] ++ ext)).
      { rewrite Hext, Hs. simpl. rewrite <- List.app_assoc. reflexivity. }
      rewrite (added_ext _ _ _ Hall).
      rewrite count_SetTable_app, count_NewTable_app, Hc, Hn, Hl, Ht, Hs.
      simpl. rewrite last_receive. split_and!; reflexivity.
Qed.

Lemma calls_app (a b : list (Effect Table)) : calls (a ++ b) = calls a ++ calls b.
Proof. unfold calls. apply List.filter_app. Qed.

Lemma calls_logs (l : list string) : calls (map (@Log Table) l) = [].
Proof. unfold calls. induction l; simpl; auto. Qed.

End WatchBackendRuns.

(** X1: after any run of the loop the table in the store is the one
    [route.NewTable] gives for the applied text [last]; while no text has
    been applied ([last] is empty) it is the table the store started
    with. *)
Theorem store_holds_table_of_applied_text {Table : Type}
    (NewTable : string -> result Table)
    (DiffMain : string -> string -> bool -> list Diff) (quote : string -> string)
    (cfg : config.Config) (wakes : list Wake) (w0 : World Table) :
  let sw := watchBackend NewTable DiffMain quote cfg wakes w0 in
  (last (fst sw) = "" /\ table (snd sw) = table w0)
  \/ NewTable (last (fst sw)) = Ok (table (snd sw)).
Proof.
  intros sw. subst sw. unfold watchBackend.
  apply (store_matches_fold Table NewTable DiffMain quote _ (table w0)).
  left. split; reflexivity.
Qed.

(** X2: after any non-empty run, if the text made of the latest service
    value, a newline and the latest manual value parses, then it is the
    applied text and the store holds its table, whatever was received and
    rejected before. *)
Theorem loop_converges_to_latest_pair {Table : Type}
    (NewTable : string -> result Table)
    (DiffMain : string -> string -> bool -> list Diff) (quote : string -> string)
    (cfg : config.Config) (wakes : list Wake) (w0 : World Table) (t : Table) :
  wakes <> [] ->
  NewTable (last_from_svc wakes +:+ nl +:+ last_from_man wakes) = Ok t ->
  let sw := watchBackend NewTable DiffMain quote cfg wakes w0 in
  last (fst sw) = last_from_svc wakes +:+ nl +:+ last_from_man wakes
  /\ table (snd sw) = t.
Proof.
  intros Hne E sw. subst sw.
  destruct (exists_last Hne) as (ws & e & ->).
  pose proof (halves_fold Table NewTable DiffMain quote
                (config.LogRoutes (config.proxy cfg)) (ws ++ [e]) (loop_init, w0)) as [Hs Hm].
  fold (watchBackend NewTable DiffMain quote cfg (ws ++ [e]) w0) in Hs, Hm.
  change (fold_left _ (ws ++ [e]) (svccfg (loop_init, w0).1))
    with (last_from_svc (ws ++ [e])) in Hs.
  change (fold_left _ (ws ++ [e]) (mancfg (loop_init, w0).1))
    with (last_from_man (ws ++ [e])) in Hm.
  rewrite <- Hs, <- Hm in *. clear Hs Hm.
  rewrite watchBackend_snoc in *. simpl in *.
  set (sw := watchBackend NewTable DiffMain quote cfg ws w0) in *.
  destruct (iteration_halves Table NewTable DiffMain quote
              (config.LogRoutes (config.proxy cfg)) sw e) as [Hs Hm].
  rewrite Hs, Hm in *. fold (merged (receive e (fst sw))) in *.
  destruct (decide (merged (receive e (fst sw)) = last (fst sw))) as [Heq|Hneq].
  - rewrite (iteration_noop _ _ _ _ _ _ _ Heq). simpl. rewrite last_receive.
    split; [symmetry; exact Heq|].
    assert (Hst : store_matches NewTable (table w0) sw).
    { apply (store_matches_fold Table NewTable DiffMain quote _ (table w0)).
      left. split; reflexivity. }
    destruct Hst as [[Hl _]|Hl].
    + exfalso. rewrite Hl in Heq. exact (merged_not_empty _ Heq).
    + rewrite <- Heq, E in Hl. congruence.
  - rewrite (iteration_ok _ _ _ _ _ _ _ _ Hneq E). simpl. split; reflexivity.
Qed.

(** X3: a run publishes only tables that [route.NewTable] returned for a
    text it was called with during the run; it publishes no more often than
    it parses, and parses at most once per wake. *)
Theorem published_tables_come_from_parses {Table : Type}
    (NewTable : string -> result Table)
    (DiffMain : string -> string -> bool -> list Diff) (quote : string -> string)
    (cfg : config.Config) (wakes : list Wake) (w0 : World Table) :
  let ext := added w0 (snd (watchBackend NewTable DiffMain quote cfg wakes w0)) in
  (count_SetTable ext <= count_NewTable ext)%nat
  /\ (count_NewTable ext <= length wakes)%nat
  /\ (forall t, In (SetTableCall t) ext ->
        exists x, NewTable x = Ok t /\ In (NewTableCall x) ext).
Proof.
  intros ext. subst ext. unfold watchBackend.
  destruct (fold_history Table NewTable DiffMain quote
              (config.LogRoutes (config.proxy cfg)) wakes (loop_init, w0))
    as (ext & Hext & H1 & H2 & H3).
  pose proof (added_ext Table w0 _ ext Hext) as Ha. rewrite Ha. auto.
Qed.

(** X4: the log format, the differ and the quoting have no influence on the
    routing: two runs over the same wakes that differ in them only end with
    the same loop variables and the same table, after the same calls to
    [route.NewTable] and [route.SetTable]. *)
Theorem logging_does_not_influence_routing {Table : Type}
    (NewTable : string -> result Table)
    (DiffMain DiffMain' : string -> string -> bool -> list Diff)
    (quote quote' : string -> string)
    (cfg cfg' : config.Config) (wakes : list Wake) (w0 : World Table) :
  let r := watchBackend NewTable DiffMain quote cfg wakes w0 in
  let r' := watchBackend NewTable DiffMain' quote' cfg' wakes w0 in
  fst r = fst r'
  /\ table (snd r) = table (snd r')
  /\ calls (added w0 (snd r)) = calls (added w0 (snd r')).
Proof.
  intros r r'. subst r r'. unfold watchBackend.
  set (f := config.LogRoutes (config.proxy cfg)).
  set (f' := config.LogRoutes (config.proxy cfg')).
  assert (H : forall ws (sw sw' : Loop * World Table),
             fst sw = fst sw' -> table (snd sw) = table (snd sw') ->
             exists ext ext',
               effects (snd (fold_left (iteration NewTable DiffMain quote f) ws sw))
                 = effects (snd sw) ++ ext
               /\ effects (snd (fold_left (iteration NewTable DiffMain' quote' f') ws sw'))
                  = effects (snd sw') ++ ext'
               /\ calls ext = calls ext'
               /\ fst (fold_left (iteration NewTable DiffMain quote f) ws sw)
                  = fst (fold_left (iteration NewTable DiffMain' quote' f') ws sw')
               /\ table (snd (fold_left (iteration NewTable DiffMain quote f) ws sw))
                  = table (snd (fold_left (iteration NewTable DiffMain' quote' f') ws sw'))).
  { induction ws as [|e ws IH]; intros sw sw' Hst Htb; simpl.
    - exists [], []. rewrite !List.app_nil_r. auto.
    - assert (Hstep : exists a a',
                effects (snd (iteration NewTable DiffMain quote f sw e))
                  = effects (snd sw) ++ a
                /\ effects (snd (iteration NewTable DiffMain' quote' f' sw' e))
                   = effects (snd sw') ++ a'
                /\ calls a = calls a'
                /\ fst (iteration NewTable DiffMain quote f sw e)
                   = fst (iteration NewTable DiffMain' quote' f' sw' e)
                /\ table (snd (iteration NewTable DiffMain quote f sw e))
                   = table (snd (iteration NewTable DiffMain' quote' f' sw' e))).
      { destruct (decide (merged (receive e (fst sw)) = last (fst sw))) as [Heq|Hneq].
        - pose proof Heq as Heq'. rewrite Hst in Heq'.
          rewrite (iteration_noop _ _ _ _ _ _ _ Heq), (iteration_noop _ _ _ _ _ _ _ Heq').
          exists [], []. rewrite !List.app_nil_r. simpl. rewrite Hst. auto.
        - pose proof Hneq as Hneq'. rewrite Hst in Hneq'.
          destruct (NewTable (merged (receive e (fst sw)))) as [t|msg] eqn:E.
          + pose proof E as E'. rewrite Hst in E'.
            rewrite (iteration_ok _ _ _ _ _ _ _ _ Hneq E),
                    (iteration_ok _ _ _ _ _ _ _ _ Hneq' E').
            do 2 eexists. simpl.
            split; [reflexivity|]. split; [reflexivity|].
            rewrite Hst. split_and!; try reflexivity.
            change (calls (NewTableCall (merged (receive e sw'.1)) :: SetTableCall t
                           :: map Log (logRoutes DiffMain quote (last sw'.1)
                                         (merged (receive e sw'.1)) f))
                    = calls (NewTableCall (merged (receive e sw'.1)) :: SetTableCall t
                             :: map Log (logRoutes DiffMain' quote' (last sw'.1)
                                           (merged (receive e sw'.1)) f'))).
            unfold calls. simpl. f_equal. f_equal.
            apply (eq_trans (calls_logs Table _)). symmetry. apply calls_logs.
          + pose proof E as E'. rewrite Hst in E'.
            rewrite (iteration_err _ _ _ _ _ _ _ _ Hneq E),
                    (iteration_err _ _ _ _ _ _ _ _ Hneq' E').
            do 2 eexists. simpl.
            split; [reflexivity|]. split; [reflexivity|].
            rewrite Hst, Htb. auto. }
      destruct Hstep as (a & a' & Ha & Ha' & Hc & Hs & Ht).
      destruct (IH _ _ Hs Ht) as (b & b' & Hb & Hb' & Hcb & Hsb & Htb').
      exists (a ++ b), (a' ++ b').
      rewrite Hb, Hb', Ha, Ha', <- !List.app_assoc, !calls_app, Hc, Hcb. auto. }
  destruct (H wakes (loop_init, w0) (loop_init, w0) eq_refl eq_refl)
    as (ext & ext' & He & He' & Hc & Hs & Ht).
  pose proof (added_ext Table w0 _ ext He) as Ha.
  pose proof (added_ext Table w0 _ ext' He') as Ha'.
  rewrite Ha, Ha'. auto.
Qed.

(** X5: from any state the loop reaches, a series of wakes whose merged
    texts all fail to parse leaves the applied text and the table of the
    store as they were; none of these wakes publishes, and each of them is
    parsed (the failed text is tried again at every wake). *)
Theorem failing_wakes_keep_the_table {Table : Type}
    (NewTable : string -> result Table)
    (DiffMain : string -> string -> bool -> list Diff) (quote : string -> string)
    (cfg : config.Config) (wakes more : list Wake) (w0 : World Table) :
  let sw := watchBackend NewTable DiffMain quote cfg wakes w0 in
  let sw' := watchBackend NewTable DiffMain quote cfg (wakes ++ more) w0 in
  Forall (fun x => exists msg, NewTable x = Err msg) (merged_texts (fst sw) more) ->
  last (fst sw') = last (fst sw)
  /\ table (snd sw') = table (snd sw)
  /\ count_SetTable (added (snd sw) (snd sw')) = 0%nat
  /\ count_NewTable (added (snd sw) (snd sw')) = length more.
Proof.
  intros sw sw' HF. subst sw sw'. rewrite watchBackend_snoc.
  apply failing_run_keeps_state; [apply watchBackend_applied | exact HF].
Qed.

(** X6: the first wake always parses: the applied text starts empty and a
    merged text never is, so even two empty configurations are handed to
    [route.NewTable] (as a single newline). *)
Theorem first_wake_always_parses {Table : Type}
    (NewTable : string -> result Table)
    (DiffMain : string -> string -> bool -> list Diff) (quote : string -> string)
    (cfg : config.Config) (e : Wake) (w0 : World Table) :
  exists rest,
    added w0 (snd (watchBackend NewTable DiffMain quote cfg [e] w0))
    = NewTableCall (merged (receive e loop_init)) :: rest
    /\ merged (receive e loop_init) <> "".
Proof.
  unfold watchBackend. simpl.
  assert (Hne : merged (receive e (fst (loop_init, w0))) <> last (fst (loop_init, w0))).
  { simpl. apply merged_not_empty. }
  destruct (NewTable (merged (receive e loop_init))) as [t|msg] eqn:E.
  - eexists. rewrite (added_ok _ _ _ _ _ _ _ _ Hne E). simpl.
    split; [reflexivity | apply merged_not_empty].
  - eexists. rewrite (added_err _ _ _ _ _ _ _ _ Hne E). simpl.
    split; [reflexivity | apply merged_not_empty].
Qed.

(** * Further properties of [logRoutes] *)

Lemma Join_marked_lines_not_empty (m t : string) :
  m <> "" -> Join (map (String.app m) (lines t)) nl <> "".
Proof.
  intros Hm H. pose proof (Replace_Join m t m) as HJ.
  destruct (lines t) as [|l ls] eqn:El.
  { exact (split_byte_nonempty _ _ El). }
  cbv beta iota in HJ. cbn [map] in H. rewrite <- HJ in H.
  apply app_eq_nil in H as [H _]. contradiction.
Qed.

Lemma fragment_spec_empty_iff (d : Diff) : fragment_spec d = "" <-> suppressed d.
Proof.
  unfold suppressed. split.
  - intros H. unfold fragment_spec in H.
    destruct (Type_ d) eqn:Et; [| |left; reflexivity]; right;
      destruct (decide (TrimSpace (Text d) = "")) as [Hd|Hd]; try exact Hd;
      exfalso; cbn [marker] in H.
    + apply (Join_marked_lines_not_empty "- " (TrimSpace (Text d))); [discriminate | exact H].
    + apply (Join_marked_lines_not_empty "+ " (TrimSpace (Text d))); [discriminate | exact H].
  - intros [H|H]; unfold fragment_spec.
    + rewrite H. reflexivity.
    + rewrite H. destruct (marker (Type_ d)); reflexivity.
Qed.

Lemma delta_written_empty_iff (diffs : list Diff) :
  delta_written diffs = "" <-> Forall suppressed diffs.
Proof.
  induction diffs as [|d ds IH]; simpl.
  - split; auto.
  - split.
    + intros H. apply app_eq_nil in H as [H1 H2].
      constructor; [apply fragment_spec_empty_iff, H1 | apply IH, H2].
    + intros H. inversion H as [|d' ds' Hd Hds]; subst.
      apply fragment_spec_empty_iff in Hd. apply IH in Hds.
      rewrite Hd, Hds. reflexivity.
Qed.

(** X7: [fmtDiff] works fragment by fragment: the output for a list of
    diffs is the output for its first part followed by the output for the
    rest, and a fragment that is equal material or blank after trimming can
    be taken out of the list without changing the output. *)
Theorem fmtDiff_composes (a b : list Diff) :
  fmtDiff (a ++ b) = fmtDiff a +:+ fmtDiff b
  /\ (forall d, suppressed d -> fmtDiff (a ++ d :: b) = fmtDiff (a ++ b)).
Proof.
  assert (Happ : forall x y, fmtDiff (x ++ y) = fmtDiff x +:+ fmtDiff y).
  { intros x y. unfold fmtDiff. rewrite fold_left_app, !fold_fmtDiff_body.
    rewrite !app_nil_l. reflexivity. }
  split; [apply Happ|].
  intros d Hd. rewrite !Happ. f_equal.
  change (d :: b) with ([d] ++ b). rewrite Happ.
  rewrite (fmtDiff_delta_written [d]). simpl.
  apply fragment_spec_empty_iff in Hd. rewrite Hd. reflexivity.
Qed.

(** X8: with the format "delta", [logRoutes] logs nothing exactly when every
    fragment of the diff is equal material or blank after trimming;
    otherwise it logs one line, the header followed by a non-empty delta. *)
Theorem logRoutes_delta_silent_iff
    (DiffMain : string -> string -> bool -> list Diff) (quote : string -> string)
    (last next : string) :
  (logRoutes DiffMain quote last next "delta" = []
   <-> Forall suppressed (DiffMain last next true))
  /\ (logRoutes DiffMain quote last next "delta" = []
      \/ exists delta, delta <> ""
           /\ logRoutes DiffMain quote last next "delta"
              = ["[INFO] Config updates" +:+ nl +:+ delta]).
Proof.
  unfold logRoutes. rewrite logRoutes_depth_delta. simpl.
  rewrite <- delta_written_empty_iff, <- fmtDiff_delta_written.
  destruct (decide (fmtDiff (DiffMain last next true) <> "")) as [H|H].
  - split.
    + split; [discriminate | intros H'; contradiction].
    + right. eexists. split; [exact H | reflexivity].
  - split.
    + split; [intros _; destruct (decide (fmtDiff (DiffMain last next true) = ""));
                [assumption | contradiction] | reflexivity].
    + left. reflexivity.
Qed.

(** * Further properties of [initBackend] *)
Section InitBackendRuns.

Variable cfg : config.Config.
Variable start : Z.
Variable world : nat -> Round.
Variable k : BackendKind.
Hypothesis known : backend_kind (config.Backend (config.registry cfg)) = Some k.

Local Abbreviation retry := (config.Retry (config.registry cfg)).
Local Abbreviation run := (initBackend_from cfg start world).

Lemma count_events_app (p : InitEvent -> bool) (a b : list InitEvent) :
  count_events p (a ++ b) = (count_events p a + count_events p b)%nat.
Proof. unfold count_events. rewrite List.filter_app, length_app. reflexivity. Qed.

Lemma trace_shape_retry (out : option (option Stop)) (pre ext : list InitEvent) :
  attempts pre = 1%nat ->
  count_events is_sleep pre = 1%nat ->
  count_events is_warning pre = 1%nat ->
  (count_events is_register pre <= 1)%nat ->
  Forall (fun e => is_sleep e = true -> e = Sleep retry) pre ->
  trace_shape k retry out ext ->
  trace_shape k retry out (pre ++ ext).
Proof.
  intros Ha Hs Hw Hr Hf (Hf' & Hr' & Ho). unfold trace_shape.
  rewrite !count_events_app, attempts_app, Ha, Hs, Hw.
  split; [apply Forall_app; split; assumption|]. split; [lia|].
  destruct out as [[[msg|code]|]|].
  - destruct Ho; split; lia.
  - destruct Ho; split; lia.
  - destruct Ho as (H1 & H2 & pre' & ->). split; [lia|]. split; [lia|].
    exists (pre ++ pre'). rewrite List.app_assoc. reflexivity.
  - destruct Ho; split; lia.
Qed.

Lemma count_events_one (p : InitEvent -> bool) (e : InitEvent) :
  count_events p [e] = if p e then 1%nat else 0%nat.
Proof. unfold count_events. simpl. destruct (p e); reflexivity. Qed.

Lemma attempts_one (e : InitEvent) :
  attempts [e] = if is_attempt e then 1%nat else 0%nat.
Proof. unfold attempts. simpl. destruct (is_attempt e); reflexivity. Qed.

Lemma attempt_counts (r : Round) :
  attempts (fst (attempt k r)) = 1%nat
  /\ count_events is_sleep (fst (attempt k r)) = 0%nat
  /\ count_events is_warning (fst (attempt k r)) = 0%nat
  /\ (count_events is_register (fst (attempt k r)) <= 1)%nat
  /\ Forall (fun e => is_sleep e = true -> e = Sleep retry) (fst (attempt k r)).
Proof.
  unfold attempt. destruct (created r), (registered r); simpl;
    split_and!; try reflexivity; try (cbv; lia);
    repeat constructor; discriminate.
Qed.

Lemma run_shape (fuel i : nat) (tr : list InitEvent) :
  exists ext,
    fst (run fuel i tr) = tr ++ ext
    /\ trace_shape k retry (snd (run fuel i tr)) ext.
Proof.
  revert i tr. induction fuel as [|fuel IH]; intros i tr.
  - exists []. simpl. rewrite List.app_nil_r. split; [reflexivity|].
    unfold trace_shape. split_and!; try constructor; reflexivity.
  - destruct (failure (world i)) as [e|] eqn:F.
    + destruct (attempt_counts (world i)) as (Ha & Hs & Hw & Hr & Hf).
      assert (Hlog : Forall (fun e => is_sleep e = true -> e = Sleep retry)
                       [InitLog ("[WARN] Error initializing backend. " +:+ e)]).
      { repeat constructor. discriminate. }
      assert (Hsl : Forall (fun e => is_sleep e = true -> e = Sleep retry) [Sleep retry]).
      { repeat constructor. }
      destruct (decide (now (world i) > deadline cfg start)) as [T|T].
      { rewrite (run_timeout cfg start world k fuel i tr e known F T). simpl.
        eexists. split; [reflexivity|]. unfold trace_shape.
        rewrite !count_events_app, attempts_app, !count_events_one, attempts_one, Ha, Hs, Hw.
        simpl. split_and!; try lia.
        apply Forall_app. split; assumption. }
      destruct (shuttingDown (world i)) eqn:D.
      { rewrite (run_shutdown cfg start world k fuel i tr e known F ltac:(lia) D). simpl.
        exists ((fst (attempt k (world i))
                 ++ [InitLog ("[WARN] Error initializing backend. " +:+ e)])
                ++ [Sleep retry]).
        split; [rewrite <- !List.app_assoc; reflexivity|]. unfold trace_shape.
        rewrite !count_events_app, !attempts_app, !count_events_one, !attempts_one,
          Ha, Hs, Hw.
        simpl. split_and!; try lia.
        repeat (apply Forall_app; split); assumption. }
      rewrite (run_retry cfg start world k fuel i tr e known F ltac:(lia) D).
      destruct (IH (S i) ((tr ++ fst (attempt k (world i))
                              ++ [InitLog ("[WARN] Error initializing backend. " +:+ e)])
                          ++ [Sleep retry])) as (ext & Hext & Hsh).
      exists ((fst (attempt k (world i))
               ++ [InitLog ("[WARN] Error initializing backend. " +:+ e)]
               ++ [Sleep retry]) ++ ext).
      split; [rewrite Hext, <- !List.app_assoc; reflexivity|].
      apply trace_shape_retry; try exact Hsh.
      * rewrite !attempts_app, !attempts_one, Ha. reflexivity.
      * rewrite !count_events_app, !count_events_one, Hs. reflexivity.
      * rewrite !count_events_app, !count_events_one, Hw. reflexivity.
      * rewrite !count_events_app, !count_events_one. simpl. lia.
      * repeat (apply Forall_app; split); assumption.
    + rewrite (run_success cfg start world k fuel i tr known F). simpl.
      eexists. split; [reflexivity|]. unfold trace_shape.
      split_and!; try reflexivity; try (cbv; lia).
      * repeat constructor; discriminate.
      * exists []. reflexivity.
Qed.

(** The rounds a run makes are bounded by the time left, whatever the
    attempts give. *)
Lemma run_attempts_bound (n fuel i : nat) (tr : list InitEvent) :
  (forall j, now (world j) + retry <= now (world (S j))) ->
  deadline cfg start - now (world i) < Z.of_nat n * retry ->
  (attempts (fst (run fuel i tr)) <= attempts tr + S n)%nat.
Proof.
  intros C. revert n i tr. induction fuel as [|fuel IH]; intros n i tr Hd.
  - simpl. lia.
  - destruct (failure (world i)) as [e|] eqn:F.
    + destruct (decide (now (world i) > deadline cfg start)) as [T|T].
      { rewrite (run_timeout cfg start world k fuel i tr e known F T). simpl.
        rewrite !attempts_app, attempts_attempt, !attempts_one. simpl. lia. }
      destruct (shuttingDown (world i)) eqn:D.
      { rewrite (run_shutdown cfg start world k fuel i tr e known F ltac:(lia) D). simpl.
        rewrite !attempts_app, attempts_attempt, !attempts_one. simpl. lia. }
      rewrite (run_retry cfg start world k fuel i tr e known F ltac:(lia) D).
      destruct n as [|n]; [lia|].
      specialize (IH n (S i) ((tr ++ fst (attempt k (world i))
                                  ++ [InitLog ("[WARN] Error initializing backend. " +:+ e)])
                              ++ [Sleep retry])).
      rewrite !attempts_app, attempts_attempt in IH.
      change (attempts [InitLog ("[WARN] Error initializing backend. " +:+ e)]) with 0%nat in IH.
      change (attempts [Sleep retry]) with 0%nat in IH.
      specialize (C i). assert (Hd' : deadline cfg start - now (world (S i)) < Z.of_nat n * retry) by lia.
      specialize (IH Hd'). lia.
    + rewrite (run_success cfg start world k fuel i tr known F). simpl.
      rewrite attempts_app. change (attempts [NewBackendCall k; RegisterCall]) with 1%nat. lia.
Qed.

Lemma run_ends_by_clock (n i : nat) (tr : list InitEvent) :
  (forall j, now (world j) + retry <= now (world (S j))) ->
  deadline cfg start - now (world i) < Z.of_nat n * retry ->
  snd (run (S n) i tr) <> None.
Proof.
  intros C. revert i tr. induction n as [|n IH]; intros i tr Hd.
  - destruct (failure (world i)) as [e|] eqn:F.
    + rewrite (run_timeout cfg start world k _ i tr e known F ltac:(lia)). discriminate.
    + rewrite (run_success cfg start world k _ i tr known F). discriminate.
  - destruct (failure (world i)) as [e|] eqn:F.
    + destruct (decide (now (world i) > deadline cfg start)) as [T|T].
      { rewrite (run_timeout cfg start world k _ i tr e known F T). discriminate. }
      destruct (shuttingDown (world i)) eqn:D.
      { rewrite (run_shutdown cfg start world k _ i tr e known F ltac:(lia) D). discriminate. }
      rewrite (run_retry cfg start world k _ i tr e known F ltac:(lia) D).
      apply IH. specialize (C i). lia.
    + rewrite (run_success cfg start world k _ i tr known F). discriminate.
Qed.

Lemma run_never_registers (fuel i : nat) (tr : list InitEvent) :
  (forall j, exists e, created (world j) = Err e) ->
  count_events is_register (fst (run fuel i tr)) = count_events is_register tr
  /\ snd (run fuel i tr) <> Some None.
Proof.
  intros Hc. revert i tr. induction fuel as [|fuel IH]; intros i tr.
  - simpl. split; [reflexivity | discriminate].
  - destruct (Hc i) as [e He].
    assert (F : failure (world i) = Some e) by (unfold failure; rewrite He; reflexivity).
    assert (A : fst (attempt k (world i)) = [NewBackendCall k])
      by (unfold attempt; rewrite He; reflexivity).
    destruct (decide (now (world i) > deadline cfg start)) as [T|T].
    { rewrite (run_timeout cfg start world k fuel i tr e known F T), A. cbn [fst snd].
      rewrite !count_events_app, !count_events_one. simpl.
      split; [lia | discriminate]. }
    destruct (shuttingDown (world i)) eqn:D.
    { rewrite (run_shutdown cfg start world k fuel i tr e known F ltac:(lia) D), A. cbn [fst snd].
      rewrite !count_events_app, !count_events_one. simpl.
      split; [lia | discriminate]. }
    rewrite (run_retry cfg start world k fuel i tr e known F ltac:(lia) D), A.
    destruct (IH (S i) ((tr ++ [NewBackendCall k]
                            ++ [InitLog ("[WARN] Error initializing backend. " +:+ e)])
                        ++ [Sleep retry])) as [H1 H2].
    split; [|exact H2]. rewrite H1, !count_events_app, !count_events_one. simpl. lia.
Qed.

Lemma run_outcome_sound (fuel i : nat) (tr : list InitEvent) :
  match snd (run fuel i tr) with
  | None => True
  | Some None =>
      exists j, (i <= j < i + fuel)%nat /\ failure (world j) = None
  | Some (Some (Fatal msg)) =>
      msg = "[FATAL] Timeout registering backend."
      /\ exists j, (i <= j < i + fuel)%nat
                   /\ failure (world j) <> None /\ now (world j) > deadline cfg start
  | Some (Some (Exit code)) =>
      code = 1
      /\ exists j, (i <= j < i + fuel)%nat
                   /\ failure (world j) <> None /\ now (world j) <= deadline cfg start
                   /\ shuttingDown (world j) = true
  end.
Proof.
  revert i tr. induction fuel as [|fuel IH]; intros i tr; [exact I|].
  destruct (failure (world i)) as [e|] eqn:F.
  - destruct (decide (now (world i) > deadline cfg start)) as [T|T].
    { rewrite (run_timeout cfg start world k fuel i tr e known F T). simpl.
      split; [reflexivity|]. exists i. split; [lia|]. rewrite F. split; [discriminate | exact T]. }
    destruct (shuttingDown (world i)) eqn:D.
    { rewrite (run_shutdown cfg start world k fuel i tr e known F ltac:(lia) D). simpl.
      split; [reflexivity|]. exists i. rewrite F.
      split_and!; [lia | lia | discriminate | lia | exact D]. }
    rewrite (run_retry cfg start world k fuel i tr e known F ltac:(lia) D).
    specialize (IH (S i) ((tr ++ fst (attempt k (world i))
                              ++ [InitLog ("[WARN] Error initializing backend. " +:+ e)])
                          ++ [Sleep retry])).
    destruct (snd (run fuel (S i) _)) as [[[msg|code]|]|]; [| | |exact I].
    + destruct IH as (Hm & j & Hj & H1 & H2). split; [exact Hm|].
      exists j. split_and!; [lia | lia | exact H1 | exact H2].
    + destruct IH as (Hm & j & Hj & H1 & H2 & H3). split; [exact Hm|].
      exists j. split_and!; [lia | lia | exact H1 | exact H2 | exact H3].
    + destruct IH as (j & Hj & H1). exists j. split; [lia | exact H1].
  - rewrite (run_success cfg start world k fuel i tr known F). simpl.
    exists i. split; [lia | exact F].
Qed.

End InitBackendRuns.

(** X9: the events of a run of [initBackend] with a known backend: every
    sleep lasts [cfg.Registry.Retry]; [Register] is called at most once per
    created backend; a run that returns or is stopped by the deadline made
    one attempt more than it slept, a run stopped by the shutdown flag
    slept after each attempt; every attempt but the successful last one of
    a run that returns logged a warning, and such a run ends with its
    [Register] call. *)
Theorem initBackend_trace_shape
    (cfg : config.Config) (start : Z) (world : nat -> Round) (k : BackendKind)
    (fuel : nat) :
  backend_kind (config.Backend (config.registry cfg)) = Some k ->
  trace_shape k (config.Retry (config.registry cfg))
    (snd (initBackend cfg start world fuel))
    (fst (initBackend cfg start world fuel)).
Proof.
  intros H. unfold initBackend.
  destruct (run_shape cfg start world k H fuel 0 []) as (ext & He & Hs).
  simpl in He. rewrite He. exact Hs.
Qed.

(** X10: with a positive retry delay and a clock that advances by at least
    the delay at each sleep, [initBackend] ends (it returns, or stops the
    process) within [Timeout / Retry + 2] rounds, whatever the attempts
    give, and never makes more attempts than that. *)
Theorem initBackend_ends_within_bound
    (cfg : config.Config) (start : Z) (world : nat -> Round) (k : BackendKind) :
  backend_kind (config.Backend (config.registry cfg)) = Some k ->
  0 < config.Retry (config.registry cfg) ->
  clock_runs cfg start world ->
  let bound := S (S (Z.to_nat (config.Timeout (config.registry cfg)
                               / config.Retry (config.registry cfg)))) in
  snd (initBackend cfg start world bound) <> None
  /\ forall fuel, (attempts (fst (initBackend cfg start world fuel)) <= bound)%nat.
Proof.
  intros H Hr [C0 C] bound. subst bound.
  pose proof (rounds_bound (config.Timeout (config.registry cfg)) _ Hr) as Hb.
  assert (Hd : deadline cfg start - now (world 0%nat)
               < Z.of_nat (S (Z.to_nat (config.Timeout (config.registry cfg)
                                        / config.Retry (config.registry cfg))))
                 * config.Retry (config.registry cfg)).
  { unfold deadline. lia. }
  split.
  - unfold initBackend. apply (run_ends_by_clock cfg start world k H); assumption.
  - intros fuel. unfold initBackend.
    pose proof (run_attempts_bound cfg start world k H _ fuel 0 [] C Hd) as Hab.
    change (attempts []) with 0%nat in Hab. lia.
Qed.

(** X11: when no backend can be created, [Register] is never called and
    [initBackend] never returns: it keeps retrying until the deadline or
    the shutdown flag stops it. *)
Theorem unreachable_backend_is_never_registered
    (cfg : config.Config) (start : Z) (world : nat -> Round) (k : BackendKind)
    (fuel : nat) :
  backend_kind (config.Backend (config.registry cfg)) = Some k ->
  (forall j, exists e, created (world j) = Err e) ->
  count_events is_register (fst (initBackend cfg start world fuel)) = 0%nat
  /\ snd (initBackend cfg start world fuel) <> Some None.
Proof.
  intros H Hc. unfold initBackend.
  apply (run_never_registers cfg start world k H fuel 0 [] Hc).
Qed.

(** X12: [initBackend] with a known backend ends only for a reason: it
    returns only after a round in which the backend was created and
    registered; it is fatal only with the timeout message and only after a
    failed round whose check came after the deadline; it exits only with
    status 1 and only after a failed round, checked before the deadline,
    whose sleep ended with the shutdown flag up. *)
Theorem initBackend_outcome_sound
    (cfg : config.Config) (start : Z) (world : nat -> Round) (k : BackendKind)
    (fuel : nat) :
  backend_kind (config.Backend (config.registry cfg)) = Some k ->
  match snd (initBackend cfg start world fuel) with
  | None => True
  | Some None =>
      exists j, (j < fuel)%nat /\ failure (world j) = None
  | Some (Some (Fatal msg)) =>
      msg = "[FATAL] Timeout registering backend."
      /\ exists j, (j < fuel)%nat
                   /\ failure (world j) <> None /\ now (world j) > deadline cfg start
  | Some (Some (Exit code)) =>
      code = 1
      /\ exists j, (j < fuel)%nat
                   /\ failure (world j) <> None /\ now (world j) <= deadline cfg start
                   /\ shuttingDown (world j) = true
  end.
Proof.
  intros H. unfold initBackend.
  pose proof (run_outcome_sound cfg start world k H fuel 0 []) as Hs.
  destruct (snd (initBackend_from cfg start world fuel 0 [])) as [[[msg|code]|]|];
    [| | |exact I].
  - destruct Hs as (Hm & j & Hj & H1 & H2). split; [exact Hm|].
    exists j. split_and!; [lia | exact H1 | exact H2].
  - destruct Hs as (Hm & j & Hj & H1 & H2 & H3). split; [exact Hm|].
    exists j. split_and!; [lia | exact H1 | exact H2 | exact H3].
  - destruct Hs as (j & Hj & H1). exists j. split; [lia | exact H1].
Qed.

(** * The further properties at sample inputs *)

Lemma loop_converges_to_latest_pair_witness :
  let wakes := [FromSvc SampleRun.bad_line; FromSvc SampleRun.good_line; FromMan ""] in
  wakes <> []
  /\ last (fst (SampleRun.watch wakes)) = SampleRun.good_line +:+ nl
  /\ table (snd (SampleRun.watch wakes))
     = [ {| Sample.service := "svc1"; Sample.src := "/foo";
            Sample.dst := "http://10.0.0.1:8080" |} ].
Proof.
  cbv zeta.
  assert (H : [FromSvc SampleRun.bad_line; FromSvc SampleRun.good_line; FromMan ""]
              <> []) by discriminate.
  split; [exact H|].
  apply (loop_converges_to_latest_pair Sample.NewTable Sample.DiffMain Sample.quote
           SampleRun.consul_cfg _ SampleRun.empty_world _ H).
  vm_compute. reflexivity.
Defined.

Lemma failing_wakes_keep_the_table_witness :
  let sw := SampleRun.watch [FromSvc SampleRun.good_line] in
  let sw' := SampleRun.watch ([FromSvc SampleRun.good_line]
                              ++ [FromMan SampleRun.bad_line; FromMan SampleRun.bad_line]) in
  last (fst sw') = last (fst sw)
  /\ table (snd sw') = table (snd sw)
  /\ count_SetTable (added (snd sw) (snd sw')) = 0%nat
  /\ count_NewTable (added (snd sw) (snd sw')) = 2%nat.
Proof.
  apply (failing_wakes_keep_the_table Sample.NewTable Sample.DiffMain Sample.quote
           SampleRun.consul_cfg [FromSvc SampleRun.good_line]
           [FromMan SampleRun.bad_line; FromMan SampleRun.bad_line]
           SampleRun.empty_world).
  repeat constructor; eexists; vm_compute; reflexivity.
Defined.

Lemma initBackend_trace_shape_witness :
  trace_shape ConsulBackend 1
    (Some None)
    [ NewBackendCall ConsulBackend;
      InitLog "[WARN] Error initializing backend. connection refused"; Sleep 1;
      NewBackendCall ConsulBackend; RegisterCall;
      InitLog "[WARN] Error initializing backend. no cluster leader"; Sleep 1;
      NewBackendCall ConsulBackend; RegisterCall ].
Proof.
  apply (initBackend_trace_shape SampleRun.consul_cfg 0 SampleRun.recovering
           ConsulBackend 5 eq_refl).
Defined.

Lemma initBackend_ends_within_bound_witness :
  snd (initBackend SampleRun.consul_cfg 0 SampleRun.down 12) <> None
  /\ forall fuel,
       (attempts (fst (initBackend SampleRun.consul_cfg 0 SampleRun.down fuel)) <= 12)%nat.
Proof.
  apply (initBackend_ends_within_bound SampleRun.consul_cfg 0 SampleRun.down
           ConsulBackend eq_refl).
  - reflexivity.
  - split; [vm_compute; discriminate|]. intros i. simpl. lia.
Defined.

Lemma unreachable_backend_is_never_registered_witness :
  count_events is_register (fst (initBackend SampleRun.consul_cfg 0 SampleRun.down 20)) = 0%nat
  /\ snd (initBackend SampleRun.consul_cfg 0 SampleRun.down 20) <> Some None.
Proof.
  apply (unreachable_backend_is_never_registered SampleRun.consul_cfg 0 SampleRun.down
           ConsulBackend 20 eq_refl).
  intros j. eexists. reflexivity.
Defined.

Lemma initBackend_outcome_sound_witness :
  exists j, (j < 5)%nat /\ failure (SampleRun.recovering j) = None.
Proof.
  apply (initBackend_outcome_sound SampleRun.consul_cfg 0 SampleRun.recovering
           ConsulBackend 5 eq_refl).
Defined.
